(** * Data-Analysis-tool: the Streamlit script [app.py] over a model of pandas

    [app.py] is a linear script: it loads an uploaded file into a pandas
    DataFrame, shows an overview, offers two cleaning actions (fill or drop
    the missing values of one column, drop duplicate rows) and draws one of
    four plots.  Every computation is a call into pandas; the script itself
    only dispatches on widget values and on column dtypes.

    The development has three layers:
    - [Py]: the Python values the script handles (column labels, scalars,
      exceptions);
    - [Pandas]: the Series/DataFrame operations the script calls, with the
      semantics of pandas (missing values, hashing of cells, sorted modes);
    - [App]: the script itself, section by section, in a state-and-exception
      monad over the DataFrame [df] that the script changes in place.

    Modelling choices:
    - [float64] cells are binary64 floats ([PrimFloat]); the missing value of
      a float column is [NaN].  A mean is numpy's pairwise sum over the
      count, as pandas computes it.
    - A text cell is a string or missing; strings compare byte by byte, which
      is the code-point order of Python for UTF-8 text.
    - [df[col].fillna(v, inplace=True)] changes [df]: pandas without
      copy-on-write, where [df[col]] is the column of [df] and not a copy.
    - The parsers [read_csv] and [read_excel] and the statistics table
      [describe] are parameters. *)

From Stdlib Require Import List ZArith Bool String Ascii Floats Lia Permutation.
Import ListNotations.

(** ** Python values *)

Module Py.

(** A column label is a Python object: text for CSV headers, possibly a number
    for spreadsheet headers, and [None] is what an empty select box returns.
    [truthy] is Python's truth test, used by the script's
    [if selected_col:]. *)
Inductive label : Type :=
| LStr (s : string)
| LInt (z : Z)
| LNone.

Definition label_eqb (a b : label) : bool :=
  match a, b with
  | LStr x, LStr y => String.eqb x y
  | LInt x, LInt y => Z.eqb x y
  | LNone, LNone => true
  | _, _ => false
  end.

Definition truthy (l : label) : bool :=
  match l with
  | LStr s => negb (String.eqb s EmptyString)
  | LInt z => negb (Z.eqb z 0%Z)
  | LNone => false
  end.

(** Scalars that a Series aggregate can return. *)
Inductive scalar : Type :=
| PyInt (z : Z)
| PyFloat (f : float)
| PyStr (s : string)
| PyBool (b : bool).

(** The exceptions the modelled calls can raise. *)
Inductive exn : Type :=
| KeyError (l : label)
| TypeError
| ValueError
| ParseError (reason : string).

End Py.

Export Py.

(** ** pandas *)

Module Pandas.

Inductive dtype : Type :=
| int64
| float64
| object
| category
| bool_.

Definition dtype_eqb (a b : dtype) : bool :=
  match a, b with
  | int64, int64 | float64, float64 | object, object
  | category, category | bool_, bool_ => true
  | _, _ => false
  end.

(** [dt in [d1, d2, ...]] *)
Definition dtype_in (d : dtype) (ds : list dtype) : bool :=
  existsb (dtype_eqb d) ds.

(** *** Cells

    pandas' hash tables ([value_counts], [duplicated]) identify cells by
    value: all missing cells are one key, and [0.0] and [-0.0] are one key. *)
Inductive key : Type :=
| KNA
| KInt (z : Z)
| KFloat (f : spec_float)
| KStr (s : string)
| KBool (b : bool).

Definition spec_float_eqb (a b : spec_float) : bool :=
  match a, b with
  | S754_zero s, S754_zero t => Bool.eqb s t
  | S754_infinity s, S754_infinity t => Bool.eqb s t
  | S754_nan, S754_nan => true
  | S754_finite s m e, S754_finite t n f =>
      Bool.eqb s t && Pos.eqb m n && Z.eqb e f
  | _, _ => false
  end.

Definition key_eqb (a b : key) : bool :=
  match a, b with
  | KNA, KNA => true
  | KInt x, KInt y => Z.eqb x y
  | KFloat x, KFloat y => spec_float_eqb x y
  | KStr x, KStr y => String.eqb x y
  | KBool x, KBool y => Bool.eqb x y
  | _, _ => false
  end.

Definition float_key (f : float) : key :=
  match Prim2SF f with
  | S754_nan => KNA
  | S754_zero _ => KFloat (S754_zero false)
  | sf => KFloat sf
  end.

(** What pandas needs of the element type of a column. *)
Class Elt (A : Type) : Type := {
  isna : A -> bool;
  hkey : A -> key;
  le : A -> A -> bool;
}.

#[export] Instance Elt_int64 : Elt Z := {
  isna := fun _ => false;
  hkey := KInt;
  le := Z.leb;
}.

#[export] Instance Elt_float64 : Elt float := {
  isna := PrimFloat.is_nan;
  hkey := float_key;
  le := PrimFloat.leb;
}.

(** A text cell is a [str] or missing ([None]/[NaN]). *)
#[export] Instance Elt_object : Elt (option string) := {
  isna := fun c => match c with None => true | Some _ => false end;
  hkey := fun c => match c with None => KNA | Some s => KStr s end;
  le := fun a b =>
    match a, b with
    | Some x, Some y => String.leb x y
    | None, _ => true
    | Some _, None => false
    end;
}.

#[export] Instance Elt_bool : Elt bool := {
  isna := fun _ => false;
  hkey := KBool;
  le := fun a b => implb a b;
}.

(** Cells seen as Python scalars; values of different kinds do not compare. *)
#[export] Instance Elt_scalar : Elt scalar := {
  isna := fun c => match c with PyFloat f => PrimFloat.is_nan f | _ => false end;
  hkey := fun c =>
    match c with
    | PyInt z => KInt z
    | PyFloat f => float_key f
    | PyStr t => KStr t
    | PyBool b => KBool b
    end;
  le := fun a b =>
    match a, b with
    | PyInt x, PyInt y => Z.leb x y
    | PyFloat x, PyFloat y => PrimFloat.leb x y
    | PyStr x, PyStr y => String.leb x y
    | PyBool x, PyBool y => implb x y
    | _, _ => false
    end;
}.

Section Generic.
Context {A : Type} `{Elt A}.

Definition notna (x : A) : bool := negb (isna x).

(** [s.isnull().any()] *)
Definition any_na (xs : list A) : bool := existsb isna xs.

(** [s.fillna(v)]: missing cells take [v], the others are kept. *)
Definition fillna (v : A) (xs : list A) : list A :=
  map (fun x => if isna x then v else x) xs.

Definition same (x y : A) : bool := key_eqb (hkey x) (hkey y).

(** Number of cells of [xs] with the key of [v]. *)
Definition occurrences (v : A) (xs : list A) : nat :=
  List.length (filter (same v) xs).

(** Distinct values in order of first appearance (hash-table order). *)
Fixpoint unique (xs : list A) : list A :=
  match xs with
  | [] => []
  | x :: xs' => x :: filter (fun y => negb (same x y)) (unique xs')
  end.

Fixpoint insert_sorted (x : A) (l : list A) : list A :=
  match l with
  | [] => [x]
  | y :: l' => if le x y then x :: l else y :: insert_sorted x l'
  end.

(** [np.sort] *)
Definition sort (l : list A) : list A := fold_right insert_sorted [] l.

Definition max_count (vals xs : list A) : nat :=
  fold_right (fun v m => Nat.max (occurrences v xs) m) 0 vals.

(** [s.mode()]: missing cells are dropped ([dropna=True]), the values with the
    highest count are collected and returned sorted. *)
Definition mode (xs : list A) : list A :=
  let present := filter notna xs in
  let vals := unique present in
  let top := max_count vals present in
  sort (filter (fun v => Nat.eqb (occurrences v present) top) vals).

End Generic.

(** Rows kept by a boolean mask ([df[mask]]). *)
Fixpoint mask {A : Type} (m : list bool) (xs : list A) : list A :=
  match m, xs with
  | b :: m', x :: xs' => if b then x :: mask m' xs' else mask m' xs'
  | _, _ => []
  end.

(** *** float64 aggregates *)

Definition float_of_nat (n : nat) : float :=
  PrimFloat.of_uint63 (Uint63.of_Z (Z.of_nat n)).

(** int64 to float64, rounding to nearest. *)
Definition float_of_Z (z : Z) : float :=
  if (z =? - 2 ^ 63)%Z then (- 0x1p+63)%float
  else if (z <? 0)%Z then (- PrimFloat.of_uint63 (Uint63.of_Z (- z)))%float
  else PrimFloat.of_uint63 (Uint63.of_Z z).

(** numpy's sum of a float64 array ([add.reduce]).  The inner loop adds a
    contiguous array by pairwise summation: fewer than 8 numbers one after
    the other from [-0.0]; up to 128 numbers in eight accumulators, lane [j]
    adding the numbers at [j], [8+j], [16+j], ..., which are then combined
    as [((r0+r1)+(r2+r3))+((r4+r5)+(r6+r7))] before the last [n mod 8]
    numbers are added one after the other; more than 128 numbers as the sum
    of two halves, the first of [n/2] rounded down to a multiple of 8. *)
Definition sum8 (r : list float) : float :=
  let x (i : nat) := nth i r 0%float in
  (((x 0%nat + x 1%nat) + (x 2%nat + x 3%nat))
   + ((x 4%nat + x 5%nat) + (x 6%nat + x 7%nat)))%float.

Fixpoint add_lanes (r b : list float) : list float :=
  match r, b with
  | x :: r', y :: b' => (x + y)%float :: add_lanes r' b'
  | _, _ => r
  end.

(** The accumulators after [k] more blocks of eight, and the rest of the
    array. *)
Fixpoint accumulate (k : nat) (r a : list float) : list float * list float :=
  match k with
  | O => (r, a)
  | S k' => accumulate k' (add_lanes r (firstn 8 a)) (skipn 8 a)
  end.

Definition pairwise_block (a : list float) : float :=
  let n := List.length a in
  if Nat.ltb n 8 then fold_left PrimFloat.add a (-0)%float
  else
    let '(r, rest) := accumulate (n / 8 - 1) (firstn 8 a) (skipn 8 a) in
    fold_left PrimFloat.add rest (sum8 r).

(** [fuel] bounds the depth of the halving; the length of the array is
    enough ([pairwise_sum_fuel_enough]). *)
Fixpoint pairwise_sum_fuel (fuel : nat) (a : list float) : float :=
  let n := List.length a in
  if Nat.leb n 128 then pairwise_block a
  else
    match fuel with
    | O => pairwise_block a
    | S fuel' =>
        let n2 := n / 2 - (n / 2) mod 8 in
        (pairwise_sum_fuel fuel' (firstn n2 a)
         + pairwise_sum_fuel fuel' (skipn n2 a))%float
    end.

Definition pairwise_sum (a : list float) : float :=
  pairwise_sum_fuel (List.length a) a.

(** [a.sum()] of a float64 array: the identity [0] plus the pairwise sum of
    the whole array, which the reduction hands to the inner loop in one
    piece. *)
Definition np_sum (a : list float) : float :=
  (0 + pairwise_sum a)%float.

(** The array in pieces of [k] cells. *)
Fixpoint chunks_fuel {X : Type} (fuel k : nat) (l : list X) : list (list X) :=
  match fuel, l with
  | S fuel', _ :: _ => firstn k l :: chunks_fuel fuel' k (skipn k l)
  | _, _ => []
  end.

Definition chunks {X : Type} (k : nat) (l : list X) : list (list X) :=
  chunks_fuel (List.length l) k l.

(** [a.sum(dtype=float64)] of an array of another dtype: the cells are cast
    through a buffer of 8192 cells, and the inner loop adds the pairwise sum
    of each buffer to the result. *)
Definition np_sum_cast {X : Type} (cast : X -> float) (a : list X) : float :=
  fold_left (fun acc c => (acc + pairwise_sum (map cast c))%float)
            (chunks (8 * 1024) a) 0%float.

Definition nan_to_zero (x : float) : float :=
  if PrimFloat.is_nan x then 0%float else x.

(** [nanmean] of a float64 array: the missing cells are set to [0], the
    array is summed, and the sum is divided by the number of present cells;
    [NaN] when there is none. *)
Definition fmean (xs : list float) : float :=
  let count := List.length (filter notna xs) in
  if Nat.eqb count 0 then PrimFloat.nan
  else (np_sum (map nan_to_zero xs) / float_of_nat count)%float.

(** [nanmean] of an int64 array: no cell is missing, the sum is taken in
    float64. *)
Definition imean (xs : list Z) : float :=
  let count := List.length xs in
  if Nat.eqb count 0 then PrimFloat.nan
  else (np_sum_cast float_of_Z xs / float_of_nat count)%float.

(** [nanmedian]: middle of the sorted present values, the mean of the two
    middle ones when their number is even; [NaN] when there is none. *)
Definition fmedian (xs : list float) : float :=
  let present := sort (filter notna xs) in
  let n := List.length present in
  if Nat.eqb n 0 then PrimFloat.nan
  else if Nat.even n
       then ((nth (n / 2 - 1) present PrimFloat.nan + nth (n / 2) present PrimFloat.nan) / 2)%float
       else nth (n / 2) present PrimFloat.nan.

(** Number of [True] in a boolean array ([m.sum()]). *)
Definition count_true (m : list bool) : nat :=
  List.length (filter (fun b => b) m).

(** *** Series

    A column is an array of one dtype.  These are the dtypes the two loaders
    produce for plain data: integers ([int64], never missing), floats
    ([float64], [NaN] is the missing value), text ([object]) and booleans
    ([bool], never missing).  A numeric column of the file with an empty cell
    is loaded as [float64]; no column is loaded as [category]. *)
Inductive Series : Type :=
| Int64Series (v : list Z)
| Float64Series (v : list float)
| ObjectSeries (v : list (option string))
| BoolSeries (v : list bool).

Definition Series_dtype (s : Series) : dtype :=
  match s with
  | Int64Series _ => int64
  | Float64Series _ => float64
  | ObjectSeries _ => object
  | BoolSeries _ => bool_
  end.

Definition Series_len (s : Series) : nat :=
  match s with
  | Int64Series v => List.length v
  | Float64Series v => List.length v
  | ObjectSeries v => List.length v
  | BoolSeries v => List.length v
  end.

(** [s.isnull()] *)
Definition Series_isnull (s : Series) : list bool :=
  match s with
  | Int64Series v => map isna v
  | Float64Series v => map isna v
  | ObjectSeries v => map isna v
  | BoolSeries v => map isna v
  end.

Definition Series_keys (s : Series) : list key :=
  match s with
  | Int64Series v => map hkey v
  | Float64Series v => map hkey v
  | ObjectSeries v => map hkey v
  | BoolSeries v => map hkey v
  end.

(** [s[m]] for a boolean mask [m] *)
Definition Series_mask (m : list bool) (s : Series) : Series :=
  match s with
  | Int64Series v => Int64Series (mask m v)
  | Float64Series v => Float64Series (mask m v)
  | ObjectSeries v => ObjectSeries (mask m v)
  | BoolSeries v => BoolSeries (mask m v)
  end.

Definition Series_head (n : nat) (s : Series) : Series :=
  match s with
  | Int64Series v => Int64Series (firstn n v)
  | Float64Series v => Float64Series (firstn n v)
  | ObjectSeries v => ObjectSeries (firstn n v)
  | BoolSeries v => BoolSeries (firstn n v)
  end.

Definition float_of_bool (b : bool) : float :=
  if b then 1%float else 0%float.

(** [nanmean] of a bool array: the [True] cells are counted (an int64 sum)
    and the count is divided by the number of cells. *)
Definition bmean (xs : list bool) : float :=
  let count := List.length xs in
  if Nat.eqb count 0 then PrimFloat.nan
  else (float_of_nat (count_true xs) / float_of_nat count)%float.

(** [s.mean()]: computed in float64; text cannot be averaged. *)
Definition Series_mean (s : Series) : exn + float :=
  match s with
  | Int64Series v => inr (imean v)
  | Float64Series v => inr (fmean v)
  | BoolSeries v => inr (bmean v)
  | ObjectSeries _ => inl TypeError
  end.

(** [s.median()] *)
Definition Series_median (s : Series) : exn + float :=
  match s with
  | Int64Series v => inr (fmedian (map float_of_Z v))
  | Float64Series v => inr (fmedian v)
  | BoolSeries v => inr (fmedian (map float_of_bool v))
  | ObjectSeries _ => inl TypeError
  end.

(** A missing text cell is the float [NaN]. *)
Definition scalar_of_object (c : option string) : scalar :=
  match c with
  | Some t => PyStr t
  | None => PyFloat PrimFloat.nan
  end.

(** The cells of a column as scalars. *)
Definition Series_cells (s : Series) : list scalar :=
  match s with
  | Int64Series v => map PyInt v
  | Float64Series v => map PyFloat v
  | ObjectSeries v => map scalar_of_object v
  | BoolSeries v => map PyBool v
  end.

(** [s.count()]: the number of present cells. *)
Definition Series_count (s : Series) : nat :=
  count_true (map negb (Series_isnull s)).

(** [s.mode()] as a list of scalars. *)
Definition Series_mode (s : Series) : list scalar :=
  match s with
  | Int64Series v => map PyInt (mode v)
  | Float64Series v => map PyFloat (mode v)
  | ObjectSeries v => map scalar_of_object (mode v)
  | BoolSeries v => map PyBool (mode v)
  end.

(** [s.mode()[0]]: the result of [mode] is indexed from 0; when it is empty
    (no present value) the lookup of label [0] raises [KeyError]. *)
Definition Series_mode0 (s : Series) : exn + scalar :=
  match Series_mode s with
  | v :: _ => inr v
  | [] => inl (KeyError (LInt 0))
  end.

(** [s.fillna(value)].  A column without missing cells is returned as it is.
    Filling a float column with a number, or a text column with text, keeps
    the dtype.  (Filling with a value of another kind would turn the column
    into a mixed [object] column; the script never does so, see
    [fill_value_fits].) *)
Definition Series_fillna (value : scalar) (s : Series) : Series :=
  match s, value with
  | Float64Series v, PyFloat f => Float64Series (fillna f v)
  | Float64Series v, PyInt z => Float64Series (fillna (float_of_Z z) v)
  | ObjectSeries v, PyStr t => ObjectSeries (fillna (Some t) v)
  | _, _ => s
  end.

(** *** DataFrame: the columns in order, each with its label. *)
Definition DataFrame : Type := list (label * Series).

(** [df.columns.tolist()] *)
Definition columns (df : DataFrame) : list label := map fst df.

(** [df.dtypes] *)
Definition dtypes (df : DataFrame) : list dtype :=
  map (fun c => Series_dtype (snd c)) df.

(** Number of rows: all columns share the index. *)
Definition nrows (df : DataFrame) : nat :=
  match df with
  | [] => 0
  | (_, s) :: _ => Series_len s
  end.

(** [df.shape] *)
Definition shape (df : DataFrame) : nat * nat := (nrows df, List.length df).

(** [df[col]]: the column labelled [col]; [KeyError] when there is none. *)
Fixpoint getitem (col : label) (df : DataFrame) : exn + Series :=
  match df with
  | [] => inl (KeyError col)
  | (l, s) :: df' => if label_eqb l col then inr s else getitem col df'
  end.

(** The frame with the data of column [col] replaced by [s]. *)
Fixpoint setitem (col : label) (s : Series) (df : DataFrame) : DataFrame :=
  match df with
  | [] => []
  | (l, s0) :: df' =>
      if label_eqb l col then (l, s) :: df' else (l, s0) :: setitem col s df'
  end.

(** [df[m]] for a boolean row mask [m] *)
Definition df_mask (m : list bool) (df : DataFrame) : DataFrame :=
  map (fun c => (fst c, Series_mask m (snd c))) df.

(** [df.head()] *)
Definition head (df : DataFrame) : DataFrame :=
  map (fun c => (fst c, Series_head 5 (snd c))) df.

(** [df.isnull().sum()]: missing cells per column. *)
Definition isnull_sum (df : DataFrame) : list (label * nat) :=
  map (fun c => (fst c, count_true (Series_isnull (snd c)))) df.

(** [df.isnull().sum().sum()] *)
Definition isnull_sum_sum (df : DataFrame) : nat :=
  fold_right (fun c n => snd c + n) 0 (isnull_sum df).

(** [df.columns[df.isnull().any()].tolist()] *)
Definition columns_with_null (df : DataFrame) : list label :=
  map fst (filter (fun c => existsb (fun b => b) (Series_isnull (snd c))) df).

(** [df.dropna(subset=[col])]: the rows whose cell in [col] is present. *)
Definition dropna (col : label) (df : DataFrame) : exn + DataFrame :=
  match getitem col df with
  | inl e => inl e
  | inr s => inr (df_mask (map negb (Series_isnull s)) df)
  end.

(** The rows of a frame as lists of keys, one key per column. *)
Fixpoint rows_of (n : nat) (cols : list (list key)) : list (list key) :=
  match n with
  | O => []
  | S n' => map (hd KNA) cols :: rows_of n' (map (@tl key) cols)
  end.

Definition rows (df : DataFrame) : list (list key) :=
  rows_of (nrows df) (map (fun c => Series_keys (snd c)) df).

Fixpoint row_eqb (r1 r2 : list key) : bool :=
  match r1, r2 with
  | [], [] => true
  | k1 :: r1', k2 :: r2' => key_eqb k1 k2 && row_eqb r1' r2'
  | _, _ => false
  end.

(** The hash-table pass of [duplicated(keep='first')]: a row is flagged when
    it is already in the table, and entered into the table otherwise. *)
Fixpoint duplicated_from (seen : list (list key)) (rs : list (list key)) : list bool :=
  match rs with
  | [] => []
  | r :: rs' =>
      if existsb (row_eqb r) seen
      then true :: duplicated_from seen rs'
      else false :: duplicated_from (r :: seen) rs'
  end.

(** [df.duplicated()] *)
Definition duplicated (df : DataFrame) : list bool :=
  duplicated_from [] (rows df).

(** [df.drop_duplicates()] *)
Definition drop_duplicates (df : DataFrame) : DataFrame :=
  df_mask (map negb (duplicated df)) df.

(** [df.select_dtypes(include=...)] *)
Definition select_dtypes (include : list dtype) (df : DataFrame) : DataFrame :=
  filter (fun c => dtype_in (Series_dtype (snd c)) include) df.

(** The table invariant: every column has the length of the index. *)
Definition aligned (df : DataFrame) : bool :=
  forallb (fun c => Nat.eqb (Series_len (snd c)) (nrows df)) df.

(** The per-column part of [df.info()]: label, non-null count, dtype. *)
Definition info (df : DataFrame) : list (label * nat * dtype) :=
  map (fun c => (fst c,
                 count_true (map negb (Series_isnull (snd c))),
                 Series_dtype (snd c))) df.

End Pandas.

Export Pandas.

(** ** The script *)

Module App.

(** [st.radio("Choose method:", ('Mean', 'Median', 'Mode', 'Drop Rows'))] *)
Inductive method : Type :=
| Mean
| Median
| Mode
| DropRows.

(** [st.selectbox("Select Plot Type", ...)] *)
Inductive plot : Type :=
| Histogram
| BarChart
| ScatterPlot
| BoxPlot.

(** The seaborn call a plot is drawn with.  A [chart] records that the call
    is made and with which data; what the plotting library then does with
    the data, raising on data it cannot plot included, is not modelled. *)
Inductive chart : Type :=
| histplot (data : Series)
| countplot (x : Series)
| scatterplot (data : DataFrame) (x y : label)
| boxplot (y : Series).

(** What the script puts on the page (headings and captions, which do not
    depend on the data, are left out). *)
Inductive ui : Type :=
| error_reading_file (e : exn)
| success_loaded
| show_head (d : DataFrame)
| show_shape (sh : nat * nat)
| show_info (i : list (label * nat * dtype))
| show_describe (d : list (label * list scalar))
| show_missing_counts (c : list (label * nat))
| success_cleaned (col : label) (m : method)
| info_no_missing
| found_duplicates (n : nat)
| success_duplicates_removed
| info_no_duplicates
| pyplot (c : chart)
| info_upload_prompt
| image_workflow.

(** The state of the widgets in one run of the script: what the user has
    picked, and which button was clicked to trigger the run. *)
Record widgets : Type := {
  missing_choice : option nat;
  method_choice : method;
  apply_cleaning_clicked : bool;
  remove_duplicates_clicked : bool;
  plot_choice : plot;
  column_choice : option nat;
  x_choice : option nat;
  y_choice : option nat;
}.

(** [st.selectbox(label, options, index)]: the option the user picked, the
    one at [index] while nothing (or nothing still on offer) is picked, and
    [None] when there is no option. *)
Definition selectbox (options : list label) (index : nat) (choice : option nat) : label :=
  match choice with
  | Some i => if Nat.ltb i (List.length options)
              then nth i options LNone
              else nth index options LNone
  | None => nth index options LNone
  end.

(** [s.endswith(suffix)] *)
Definition endswith (s suffix : string) : bool :=
  let n := String.length s in
  let k := String.length suffix in
  Nat.leb k n && String.eqb (substring (n - k) k s) suffix.

Record UploadedFile : Type := {
  name : string;
  content : list Byte.byte;
}.

(** *** The monad of a script run

    A run threads the table [df], which the cleaning calls change in place,
    appends to the page, and stops at the first uncaught exception; the
    table keeps the state it had when the exception was raised. *)
Definition M (A : Type) : Type := DataFrame -> DataFrame * list ui * (exn + A).

Definition ret {A : Type} (a : A) : M A := fun df => (df, [], inr a).

Definition bind {A B : Type} (c : M A) (k : A -> M B) : M B :=
  fun df =>
    match c df with
    | (df1, out1, inl e) => (df1, out1, inl e)
    | (df1, out1, inr a) =>
        match k a df1 with
        | (df2, out2, r) => (df2, out1 ++ out2, r)
        end
    end.

Definition get : M DataFrame := fun df => (df, [], inr df).

Definition put (df' : DataFrame) : M unit := fun _ => (df', [], inr tt).

Definition emit (u : ui) : M unit := fun df => (df, [u], inr tt).

(** The value of a call that may raise. *)
Definition lift {A : Type} (r : exn + A) : M A := fun df => (df, [], r).

Definition when (b : bool) (c : M unit) : M unit := if b then c else ret tt.

(** The table a run leaves behind. *)
Definition exec {A : Type} (c : M A) (df : DataFrame) : DataFrame :=
  fst (fst (c df)).

Declare Scope script_scope.
Delimit Scope script_scope with script.
Notation "x <- c ;; k" := (bind c (fun x => k))
  (at level 61, c at next level, right associativity) : script_scope.
Notation "c ;; k" := (bind c (fun _ => k))
  (at level 61, right associativity) : script_scope.
Local Open Scope script_scope.

(** [df[col]] in the script: a lookup in the current table. *)
Definition col_ (col : label) : M Series :=
  df <- get ;; lift (getitem col df).

(** [df.dropna(subset=[col], inplace=True)] *)
Definition dropna_inplace (col : label) : M unit :=
  df <- get ;; df' <- lift (dropna col df) ;; put df'.

(** [df[col].fillna(value, inplace=True)].  [df[col]] is the column of [df]
    itself (pandas without copy-on-write), so filling it in place changes
    [df]. *)
Definition fillna_inplace (col : label) (value : scalar) : M unit :=
  s <- col_ col ;;
  df <- get ;;
  put (setitem col (Series_fillna value s) df).

(** [df.drop_duplicates(inplace=True)] *)
Definition drop_duplicates_inplace : M unit :=
  df <- get ;; put (drop_duplicates df).

Section Script.

(** The two parsers and [describe] are pandas code whose results the script
    only passes on. *)
Variable read_csv : UploadedFile -> exn + DataFrame.
Variable read_excel : UploadedFile -> exn + DataFrame.
Variable describe : DataFrame -> exn + list (label * list scalar).

(** [load_data]: the parsed table, or [None]; a caught exception is shown on
    the page. *)
Definition load_data (file : UploadedFile) : list ui * option DataFrame :=
  if endswith (name file) ".csv" then
    match read_csv file with
    | inr df => ([], Some df)
    | inl e => ([error_reading_file e], None)
    end
  else if endswith (name file) ".xls" || endswith (name file) ".xlsx" then
    match read_excel file with
    | inr df => ([], Some df)
    | inl e => ([error_reading_file e], None)
    end
  else ([], None).

(** Sections 1 and 2 of the page: preview, shape, info, statistics. *)
Definition data_overview : M unit :=
  df <- get ;;
  emit (show_head (head df)) ;;
  emit (show_shape (shape df)) ;;
  emit (show_info (info df)) ;;
  d <- lift (describe df) ;;
  emit (show_describe d).

(** The body of [if st.button("Apply Cleaning"):]. *)
Definition apply_cleaning (fill_method : method) (selected_col_missing : label) : M unit :=
  match fill_method with
  | DropRows => dropna_inplace selected_col_missing
  | _ =>
      s <- col_ selected_col_missing ;;
      if dtype_in (Series_dtype s) [int64; float64] then
        fill_value <-
          match fill_method with
          | Mean =>
              s <- col_ selected_col_missing ;;
              f <- lift (Series_mean s) ;; ret (PyFloat f)
          | Median =>
              s <- col_ selected_col_missing ;;
              f <- lift (Series_median s) ;; ret (PyFloat f)
          | _ =>
              s <- col_ selected_col_missing ;;
              lift (Series_mode0 s)
          end ;;
        fillna_inplace selected_col_missing fill_value
      else
        s <- col_ selected_col_missing ;;
        fill_value <- lift (Series_mode0 s) ;;
        fillna_inplace selected_col_missing fill_value
  end ;;
  emit (success_cleaned selected_col_missing fill_method).

(** "Handle Missing Values" *)
Definition handle_missing_values (w : widgets) : M unit :=
  df <- get ;;
  if Nat.ltb 0 (isnull_sum_sum df) then
    emit (show_missing_counts
            (filter (fun c => Nat.ltb 0 (snd c)) (isnull_sum df))) ;;
    let missing_cols := columns_with_null df in
    let selected_col_missing := selectbox missing_cols 0 (missing_choice w) in
    let fill_method := method_choice w in
    when (apply_cleaning_clicked w)
      (apply_cleaning fill_method selected_col_missing)
  else emit info_no_missing.

(** "Remove Duplicates" *)
Definition remove_duplicates (w : widgets) : M unit :=
  df <- get ;;
  if Nat.ltb 0 (count_true (duplicated df)) then
    emit (found_duplicates (count_true (duplicated df))) ;;
    when (remove_duplicates_clicked w)
      (drop_duplicates_inplace ;; emit success_duplicates_removed)
  else emit info_no_duplicates.

(** "Data Visualization" *)
Definition visualization (w : widgets) : M unit :=
  df <- get ;;
  match plot_choice w with
  | Histogram =>
      let num_cols := columns (select_dtypes [int64; float64] df) in
      let selected_col := selectbox num_cols 0 (column_choice w) in
      when (truthy selected_col)
        (s <- col_ selected_col ;; emit (pyplot (histplot s)))
  | BarChart =>
      let cat_cols := columns (select_dtypes [object; category] df) in
      let selected_col := selectbox cat_cols 0 (column_choice w) in
      when (truthy selected_col)
        (s <- col_ selected_col ;; emit (pyplot (countplot s)))
  | ScatterPlot =>
      let num_cols := columns (select_dtypes [int64; float64] df) in
      let col_x := selectbox num_cols 0 (x_choice w) in
      let col_y :=
        selectbox num_cols
          (if Nat.ltb 1 (List.length num_cols) then 1 else 0) (y_choice w) in
      when (truthy col_x && truthy col_y)
        (emit (pyplot (scatterplot df col_x col_y)))
  | BoxPlot =>
      let num_cols := columns (select_dtypes [int64; float64] df) in
      let selected_col := selectbox num_cols 0 (column_choice w) in
      when (truthy selected_col)
        (s <- col_ selected_col ;; emit (pyplot (boxplot s)))
  end.

(** The page for a loaded table. *)
Definition page (w : widgets) : M unit :=
  emit success_loaded ;;
  data_overview ;;
  handle_missing_values w ;;
  remove_duplicates w ;;
  visualization w.

(** One run of the script: what is shown, and the table at the end of the
    run (if one was loaded). *)
Definition run (uploaded_file : option UploadedFile) (w : widgets)
  : list ui * option DataFrame :=
  match uploaded_file with
  | None => ([info_upload_prompt; image_workflow], None)
  | Some file =>
      match load_data file with
      | (out, None) => (out, None)
      | (out, Some df) =>
          match page w df with
          | (df', out', _) => (out ++ out', Some df')
          end
      end
  end.

End Script.

End App.

Export App.

(** ** Specification vocabulary *)

Section Vocabulary.
Context {A : Type} `{Elt A}.

(** [m] is a present value of [xs] that no present value outnumbers. *)
Definition most_frequent (m : A) (xs : list A) : Prop :=
  In m xs /\ isna m = false /\
  forall v, In v xs -> isna v = false -> occurrences v xs <= occurrences m xs.

(** Among the most frequent values, [m] comes first in sort order. *)
Definition smallest_most_frequent (m : A) (xs : list A) : Prop :=
  most_frequent m xs /\
  forall v, In v xs -> isna v = false ->
            occurrences v xs = occurrences m xs -> le m v = true.

(** Row at which the value of [v] is first met. *)
Fixpoint first_index (v : A) (xs : list A) : nat :=
  match xs with
  | [] => 0
  | x :: xs' => if same v x then 0 else S (first_index v xs')
  end.

(** Among the most frequent values, [m] is met first in row order. *)
Definition first_met_most_frequent (m : A) (xs : list A) : Prop :=
  most_frequent m xs /\
  forall v, In v xs -> isna v = false ->
            occurrences v xs = occurrences m xs ->
            first_index m xs <= first_index v xs.

End Vocabulary.

(** The value the handler computes for [fill_value], from the column it
    reads. *)
Definition fill_value (fill_method : method) (s : Series) : exn + scalar :=
  if dtype_in (Series_dtype s) [int64; float64] then
    match fill_method with
    | Mean =>
        match Series_mean s with inl e => inl e | inr f => inr (PyFloat f) end
    | Median =>
        match Series_median s with inl e => inl e | inr f => inr (PyFloat f) end
    | _ => Series_mode0 s
    end
  else Series_mode0 s.

(** The kinds of value a column can be filled with and keep its dtype. *)
Definition fits (v : scalar) (s : Series) : bool :=
  match s, v with
  | Float64Series _, PyFloat _ => true
  | ObjectSeries _, PyStr _ => true
  | Int64Series _, _ => true
  | BoolSeries _, _ => true
  | _, _ => false
  end.

(** What a cleaning step keeps of the table: the column labels in their
    order, the dtypes, and no more rows than before. *)
Definition same_frame (df df' : DataFrame) : Prop :=
  columns df' = columns df
  /\ dtypes df' = dtypes df
  /\ nrows df' <= nrows df.

(** The columns a plot kind can be drawn from. *)
Definition eligible (p : plot) (df : DataFrame) : list label :=
  match p with
  | BarChart => columns (select_dtypes [object; category] df)
  | _ => columns (select_dtypes [int64; float64] df)
  end.

(** Position of a float in the order of [SFcompare], as a triple compared
    lexicographically: class, exponent, mantissa. *)
Definition sf_rank (x : spec_float) : Z * Z * Z :=
  match x with
  | S754_zero _ => (0, 0, 0)
  | S754_infinity s => if s then (-2, 0, 0) else (2, 0, 0)
  | S754_nan => (0, 0, 0)
  | S754_finite s m e => if s then (-1, - e, - Z.pos m) else (1, e, Z.pos m)
  end%Z.

Definition lex_le (a b : Z * Z * Z) : Prop :=
  let '(a1, a2, a3) := a in
  let '(b1, b2, b3) := b in
  (a1 < b1 \/ (a1 = b1 /\ (a2 < b2 \/ (a2 = b2 /\ a3 <= b3))))%Z.

(** Two columns with the same cells in another order of the rows. *)
Inductive Series_permuted : Series -> Series -> Prop :=
| permuted_int64 (v v' : list Z) :
    Permutation v v' -> Series_permuted (Int64Series v) (Int64Series v')
| permuted_float64 (v v' : list float) :
    Permutation v v' -> Series_permuted (Float64Series v) (Float64Series v')
| permuted_object (v v' : list (option string)) :
    Permutation v v' -> Series_permuted (ObjectSeries v) (ObjectSeries v')
| permuted_bool (v v' : list bool) :
    Permutation v v' -> Series_permuted (BoolSeries v) (BoolSeries v').

(** Values that the order cannot tell apart have one key. *)
Class EltAntisym (A : Type) `{Elt A} : Prop := {
  le_antisym : forall x y : A,
    isna x = false -> isna y = false ->
    le x y = true -> le y x = true -> hkey x = hkey y;
}.

(** Two cells hold the same value: the same integer, text or boolean, the
    same number for floats ([0.0] and [-0.0] are one number), and a missing
    cell is the same as any other missing cell. *)
Definition same_cell (a b : scalar) : bool :=
  match a, b with
  | PyInt x, PyInt y => Z.eqb x y
  | PyFloat x, PyFloat y =>
      (PrimFloat.is_nan x && PrimFloat.is_nan y) || PrimFloat.eqb x y
  | PyStr x, PyStr y => String.eqb x y
  | PyBool x, PyBool y => Bool.eqb x y
  | _, _ => false
  end.

(** The cell of a column in row [i]. *)
Definition cell (i : nat) (s : Series) : scalar :=
  nth i (Series_cells s) (PyFloat PrimFloat.nan).

(** [s] is [p ++ suffix] for some [p]. *)
Definition has_suffix (s suffix : string) : Prop :=
  exists p : string, s = (p ++ suffix)%string.

(** The order and the hashing of a column's values agree. *)
Class EltLaws (A : Type) `{Elt A} : Prop := {
  hkey_na : forall x : A, hkey x = KNA <-> isna x = true;
  le_total : forall x y : A,
    isna x = false -> isna y = false -> le x y = true \/ le y x = true;
  le_trans : forall x y z : A,
    isna x = false -> isna y = false -> isna z = false ->
    le x y = true -> le y z = true -> le x z = true;
  le_hkey : forall x y : A,
    isna x = false -> hkey x = hkey y -> le x y = true;
}.

(** ** Keys and labels *)

Lemma spec_float_eqb_eq (a b : spec_float) :
  spec_float_eqb a b = true <-> a = b.
Proof.
  destruct a as [s|s| |s m e], b as [t|t| |t n f]; cbn;
    try (split; [discriminate | congruence]);
    try (rewrite Bool.eqb_true_iff; split; congruence).
  - tauto.
  - rewrite !andb_true_iff, Bool.eqb_true_iff, Pos.eqb_eq, Z.eqb_eq.
    split; [intros [[-> ->] ->]; reflexivity | intros [= -> -> ->]; auto].
Qed.

Lemma key_eqb_eq (a b : key) : key_eqb a b = true <-> a = b.
Proof.
  destruct a, b; cbn; try (split; [discriminate | congruence]).
  - tauto.
  - rewrite Z.eqb_eq. split; congruence.
  - rewrite spec_float_eqb_eq. split; congruence.
  - rewrite String.eqb_eq. split; congruence.
  - rewrite Bool.eqb_true_iff. split; congruence.
Qed.

Lemma key_eqb_refl (a : key) : key_eqb a a = true.
Proof. apply key_eqb_eq. reflexivity. Qed.

Lemma row_eqb_eq (r1 r2 : list key) : row_eqb r1 r2 = true <-> r1 = r2.
Proof.
  revert r2. induction r1 as [|k r1 IH]; intros [|k' r2]; cbn;
    try (split; [discriminate | congruence]).
  - tauto.
  - rewrite andb_true_iff, key_eqb_eq, IH. split.
    + intros [-> ->]. reflexivity.
    + intros [= -> ->]. auto.
Qed.

Lemma label_eqb_eq (a b : label) : label_eqb a b = true <-> a = b.
Proof.
  destruct a, b; cbn; try (split; [discriminate | congruence]).
  - rewrite String.eqb_eq. split; congruence.
  - rewrite Z.eqb_eq. split; congruence.
  - tauto.
Qed.

Lemma label_eqb_refl (a : label) : label_eqb a a = true.
Proof. apply label_eqb_eq. reflexivity. Qed.

Lemma method_eq_dec (a b : method) : {a = b} + {a <> b}.
Proof. decide equality. Qed.

(** ** The order of each element type *)

Lemma is_nan_Prim2SF (f : float) :
  PrimFloat.is_nan f = match Prim2SF f with S754_nan => true | _ => false end.
Proof.
  unfold PrimFloat.is_nan. rewrite eqb_spec. unfold SFeqb, SFcompare.
  destruct (Prim2SF f) as [s|s| |s m e]; try destruct s; try reflexivity;
    rewrite Z.compare_refl, Pos.compare_cont_refl; reflexivity.
Qed.

Lemma SFleb_rank (x y : spec_float) :
  x <> S754_nan -> y <> S754_nan ->
  SFleb x y = true <-> lex_le (sf_rank x) (sf_rank y).
Proof.
  intros Hx Hy. unfold SFleb, SFcompare.
  destruct x as [s|s| |s m e], y as [t|t| |t n f]; try congruence;
    try destruct s; try destruct t; cbn;
    try (split; [intros _; lia | reflexivity]);
    try (split; [discriminate | lia]).
  all: destruct (Z.compare_spec e f); rewrite ?Pos.compare_cont_spec; cbn;
    [destruct (Pos.compare_spec m n); cbn | | ];
    split; try discriminate; try reflexivity; lia.
Qed.

Lemma lex_le_trans (a b c : Z * Z * Z) :
  lex_le a b -> lex_le b c -> lex_le a c.
Proof.
  destruct a as [[a1 a2] a3], b as [[b1 b2] b3], c as [[c1 c2] c3].
  unfold lex_le. lia.
Qed.

Lemma lex_le_total (a b : Z * Z * Z) : lex_le a b \/ lex_le b a.
Proof.
  destruct a as [[a1 a2] a3], b as [[b1 b2] b3]. unfold lex_le. lia.
Qed.

Lemma float_present (f : float) :
  PrimFloat.is_nan f = false -> Prim2SF f <> S754_nan.
Proof. rewrite is_nan_Prim2SF. destruct (Prim2SF f); congruence. Qed.

Lemma float_key_rank (x y : float) :
  float_key x = float_key y -> sf_rank (Prim2SF x) = sf_rank (Prim2SF y).
Proof.
  unfold float_key.
  destruct (Prim2SF x) as [s|s| |s m e], (Prim2SF y) as [t|t| |t n f];
    cbn; intros E; try discriminate E; try reflexivity;
    injection E as E; subst; reflexivity.
Qed.

Lemma lex_le_refl (a : Z * Z * Z) : lex_le a a.
Proof. destruct a as [[a1 a2] a3]. unfold lex_le. lia. Qed.

#[export] Instance EltLaws_int64 : EltLaws Z.
Proof.
  split; cbn.
  - intros x. split; discriminate.
  - intros x y _ _. rewrite !Z.leb_le. lia.
  - intros x y z _ _ _. rewrite !Z.leb_le. lia.
  - intros x y _ [= ->]. apply Z.leb_refl.
Qed.

#[export] Instance EltLaws_bool : EltLaws bool.
Proof.
  split; cbn.
  - intros x. split; discriminate.
  - intros [] [] _ _; cbn; auto.
  - intros [] [] [] _ _ _; cbn; auto.
  - intros [] [] _; cbn; congruence.
Qed.

#[export] Instance EltLaws_float64 : EltLaws float.
Proof.
  split; cbn.
  - intros x. rewrite is_nan_Prim2SF. unfold float_key.
    destruct (Prim2SF x); split; congruence.
  - intros x y Hx Hy. apply float_present in Hx, Hy.
    rewrite !leb_spec, !SFleb_rank by assumption. apply lex_le_total.
  - intros x y z Hx Hy Hz. apply float_present in Hx, Hy, Hz.
    rewrite !leb_spec, !SFleb_rank by assumption. apply lex_le_trans.
  - intros x y Hx Hk.
    assert (Hy : PrimFloat.is_nan y = false).
    { rewrite is_nan_Prim2SF in *. unfold float_key in Hk.
      destruct (Prim2SF x), (Prim2SF y); congruence. }
    apply float_present in Hx, Hy.
    rewrite leb_spec, SFleb_rank by assumption.
    rewrite (float_key_rank _ _ Hk). apply lex_le_refl.
Qed.

Lemma Ascii_compare_refl (a : ascii) : Ascii.compare a a = Eq.
Proof. apply N.compare_refl. Qed.

Lemma String_compare_refl (s : string) : String.compare s s = Eq.
Proof.
  induction s as [|a s IH]; cbn; [reflexivity|].
  rewrite Ascii_compare_refl. exact IH.
Qed.

Lemma String_compare_Lt_trans (s1 s2 s3 : string) :
  String.compare s1 s2 = Lt -> String.compare s2 s3 = Lt ->
  String.compare s1 s3 = Lt.
Proof.
  revert s2 s3. induction s1 as [|a s1 IH]; intros [|b s2] [|c s3]; cbn;
    try congruence.
  unfold Ascii.compare.
  destruct (N.compare_spec (N_of_ascii a) (N_of_ascii b)) as [E1|L1|G1];
    destruct (N.compare_spec (N_of_ascii b) (N_of_ascii c)) as [E2|L2|G2];
    try discriminate; intros H1 H2.
  - rewrite E1, E2, N.compare_refl. eauto.
  - rewrite E1. apply N.compare_lt_iff in L2. rewrite L2. reflexivity.
  - rewrite <- E2. apply N.compare_lt_iff in L1. rewrite L1. reflexivity.
  - assert (L : (N_of_ascii a < N_of_ascii c)%N) by lia.
    apply N.compare_lt_iff in L. rewrite L. reflexivity.
Qed.

Lemma String_leb_trans (s1 s2 s3 : string) :
  String.leb s1 s2 = true -> String.leb s2 s3 = true ->
  String.leb s1 s3 = true.
Proof.
  unfold String.leb.
  destruct (String.compare s1 s2) eqn:E12; try discriminate;
    destruct (String.compare s2 s3) eqn:E23; try discriminate; intros _ _.
  - apply String.compare_eq_iff in E12, E23. subst.
    rewrite String_compare_refl. reflexivity.
  - apply String.compare_eq_iff in E12. subst. rewrite E23. reflexivity.
  - apply String.compare_eq_iff in E23. subst. rewrite E12. reflexivity.
  - rewrite (String_compare_Lt_trans _ _ _ E12 E23). reflexivity.
Qed.

#[export] Instance EltLaws_object : EltLaws (option string).
Proof.
  split; cbn.
  - intros [x|]; split; congruence.
  - intros [x|] [y|] Hx Hy; try discriminate. apply String.leb_total.
  - intros [x|] [y|] [z|] Hx Hy Hz; try discriminate.
    apply String_leb_trans.
  - intros [x|] [y|] Hx; try discriminate. intros [= ->].
    unfold String.leb. rewrite String_compare_refl. reflexivity.
Qed.

(** ** The pairwise sum *)

Lemma half_block_bounds (n : nat) :
  128 < n ->
  let n2 := n / 2 - (n / 2) mod 8 in
  0 < n2 /\ n2 < n.
Proof.
  intros Hn. cbv zeta.
  pose proof (Nat.mod_upper_bound (n / 2) 8 ltac:(lia)) as Hm.
  pose proof (Nat.Div0.div_lt_upper_bound n 2 n ltac:(lia)) as Hd.
  assert (H64 : 64 <= n / 2) by (apply Nat.div_le_lower_bound; lia).
  lia.
Qed.

(** The halving ends before the fuel does: any fuel from the length of the
    array on gives the same sum. *)
Lemma pairwise_sum_fuel_enough (fuel fuel' : nat) (a : list float) :
  List.length a <= fuel -> List.length a <= fuel' ->
  pairwise_sum_fuel fuel a = pairwise_sum_fuel fuel' a.
Proof.
  revert fuel' a. induction fuel as [|f IH]; intros fuel' a Hf Hf'.
  - destruct a; [|cbn in Hf; lia]. destruct fuel'; reflexivity.
  - destruct fuel' as [|f'].
    + destruct a; [|cbn in Hf'; lia]. reflexivity.
    + cbn [pairwise_sum_fuel].
      destruct (Nat.leb (List.length a) 128) eqn:E; [reflexivity|].
      apply Nat.leb_gt in E.
      destruct (half_block_bounds _ E) as [H0 H1].
      f_equal.
      * apply IH; rewrite length_firstn; lia.
      * apply IH; rewrite length_skipn; lia.
Qed.

(** ** Keys and cells *)

Lemma float_key_same (x y : float) :
  float_key x = float_key y <->
  (PrimFloat.is_nan x && PrimFloat.is_nan y) || PrimFloat.eqb x y = true.
Proof.
  rewrite !is_nan_Prim2SF, eqb_spec. unfold float_key, SFeqb, SFcompare.
  destruct (Prim2SF x) as [s|s| |s m e], (Prim2SF y) as [t|t| |t n f];
    try destruct s; try destruct t; cbn;
    try (split; [reflexivity | discriminate]);
    try (split; [discriminate | reflexivity]);
    try (split; [intros _; reflexivity | intros _; reflexivity]);
    try (split; discriminate).
  all: destruct (Z.compare_spec e f) as [Ee|Ee|Ee];
    rewrite ?Pos.compare_cont_spec; cbn;
    try (destruct (Pos.compare_spec m n) as [Em|Em|Em]; cbn);
    split; intros E; try discriminate E; try reflexivity;
    try (subst; reflexivity);
    try (injection E as E1 E2; lia).
Qed.

Lemma float_key_not_other (x : float) (k : key) :
  (forall f, k <> KFloat f) -> k <> KNA -> float_key x <> k.
Proof.
  intros Hf Hn. unfold float_key.
  destruct (Prim2SF x); intros E; subst k;
    solve [apply Hn; reflexivity | eapply Hf; reflexivity].
Qed.

(** Two cells have one key exactly when they hold the same value. *)
Lemma hkey_same_cell (a b : scalar) :
  hkey a = hkey b <-> same_cell a b = true.
Proof.
  destruct a as [x|x|x|x], b as [y|y|y|y]; cbn [hkey Elt_scalar same_cell];
    try (split; [|discriminate]);
    try discriminate;
    try (intros E; exfalso; revert E; apply float_key_not_other;
         discriminate);
    try (intros E; exfalso; symmetry in E; revert E;
         apply float_key_not_other; discriminate).
  - rewrite Z.eqb_eq. split; congruence.
  - apply float_key_same.
  - rewrite String.eqb_eq. split; congruence.
  - rewrite Bool.eqb_true_iff. split; congruence.
Qed.

(** ** [mode]: the smallest of the most frequent values *)

Section ModeFacts.
Context {A : Type} `{EltLaws A}.

Lemma same_hkey (x y : A) : same x y = true <-> hkey x = hkey y.
Proof. apply key_eqb_eq. Qed.

Lemma same_refl (x : A) : same x x = true.
Proof. apply key_eqb_refl. Qed.

Lemma same_present (x y : A) :
  same x y = true -> isna x = false -> isna y = false.
Proof.
  rewrite same_hkey. intros E Hx.
  destruct (isna y) eqn:Hy; [|reflexivity].
  apply hkey_na in Hy. rewrite Hy in E. apply hkey_na in E. congruence.
Qed.

Lemma occurrences_hkey (v v' : A) (l : list A) :
  hkey v = hkey v' -> occurrences v l = occurrences v' l.
Proof.
  intros E. unfold occurrences. f_equal. apply filter_ext.
  intros x. unfold same. rewrite E. reflexivity.
Qed.

Lemma occurrences_present (v : A) (xs : list A) :
  isna v = false -> occurrences v (filter notna xs) = occurrences v xs.
Proof.
  intros Hv. unfold occurrences. f_equal.
  induction xs as [|x xs IH]; cbn; [reflexivity|].
  unfold notna at 1. destruct (isna x) eqn:Hx; cbn.
  - destruct (same v x) eqn:E; [|exact IH].
    apply same_present in E; congruence.
  - rewrite IH. reflexivity.
Qed.

Lemma occurrences_pos (v : A) (l : list A) : In v l -> 0 < occurrences v l.
Proof.
  intros Hin. unfold occurrences.
  assert (Hf : In v (filter (same v) l)).
  { apply filter_In. split; [exact Hin | apply same_refl]. }
  destruct (filter (same v) l); [destruct Hf | cbn; lia].
Qed.

Lemma unique_In (v : A) (l : list A) : In v (unique l) -> In v l.
Proof.
  induction l as [|x l IH]; cbn; [tauto|].
  intros [->|Hin]; [left; reflexivity|].
  right. apply IH. apply filter_In in Hin. tauto.
Qed.

Lemma unique_cover (x : A) (l : list A) :
  In x l -> exists u, In u (unique l) /\ hkey u = hkey x.
Proof.
  induction l as [|a l IH]; cbn; [tauto|].
  intros [->|Hin].
  - exists x. auto.
  - destruct (IH Hin) as (u & Hu & E).
    destruct (same a u) eqn:S.
    + exists a. split; [left; reflexivity|].
      apply same_hkey in S. congruence.
    + exists u. split; [|exact E].
      right. apply filter_In. rewrite S. auto.
Qed.

Lemma max_count_ge (v : A) (vals l : list A) :
  In v vals -> occurrences v l <= max_count vals l.
Proof.
  induction vals as [|a vals IH]; [intros []|].
  change (max_count (a :: vals) l)
    with (Nat.max (occurrences a l) (max_count vals l)).
  intros [->|Hin]; [apply Nat.le_max_l|].
  specialize (IH Hin). lia.
Qed.

Lemma max_count_attained (vals l : list A) :
  vals <> [] -> exists v, In v vals /\ occurrences v l = max_count vals l.
Proof.
  induction vals as [|a vals IH]; [congruence|]. intros _.
  change (max_count (a :: vals) l)
    with (Nat.max (occurrences a l) (max_count vals l)).
  destruct vals as [|b vals].
  - exists a. split; [left; reflexivity|].
    change (max_count [] l) with 0. lia.
  - destruct IH as (v & Hv & E); [congruence|].
    destruct (Nat.max_spec (occurrences a l) (max_count (b :: vals) l))
      as [[_ ->]|[_ ->]].
    + exists v. split; [right; exact Hv | exact E].
    + exists a. split; [left; reflexivity | reflexivity].
Qed.

Lemma insert_sorted_In (x v : A) (l : list A) :
  In v (insert_sorted x l) <-> v = x \/ In v l.
Proof.
  induction l as [|y l IH]; cbn.
  - intuition.
  - destruct (le x y); cbn; [intuition | rewrite IH; intuition].
Qed.

Lemma sort_In (v : A) (l : list A) : In v (sort l) <-> In v l.
Proof.
  induction l as [|x l IH]; [cbn; tauto|].
  change (sort (x :: l)) with (insert_sorted x (sort l)).
  rewrite insert_sorted_In, IH. cbn. intuition.
Qed.

Lemma le_refl_present (x : A) : isna x = false -> le x x = true.
Proof. intros Hx. apply le_hkey; auto. Qed.

(** The head of a sorted list of present values is below all of them. *)
Lemma sort_head_least (l : list A) (m : A) (rest : list A) :
  (forall v, In v l -> isna v = false) ->
  sort l = m :: rest ->
  forall v, In v l -> le m v = true.
Proof.
  revert m rest. induction l as [|x l IH]; intros m rest Hp.
  - discriminate.
  - change (sort (x :: l)) with (insert_sorted x (sort l)).
    assert (Hx : isna x = false) by (apply Hp; left; reflexivity).
    assert (Hl : forall v, In v l -> isna v = false)
      by (intros v Hv; apply Hp; right; exact Hv).
    destruct (sort l) as [|y s] eqn:Es; cbn [insert_sorted].
    + intros E; injection E as E1 E2; subst m rest.
      intros v [<-|Hv]; [apply le_refl_present; exact Hx|].
      apply sort_In in Hv. rewrite Es in Hv. destruct Hv.
    + assert (Hy : isna y = false).
      { apply Hl. apply sort_In. rewrite Es. left. reflexivity. }
      specialize (IH y s Hl eq_refl).
      destruct (le x y) eqn:Exy.
      * intros E; injection E as E1 E2; subst m rest.
        intros v [<-|Hv]; [apply le_refl_present; exact Hx|].
        apply (le_trans x y v); auto.
      * intros E; injection E as E1 E2; subst m rest.
        intros v [<-|Hv]; [|auto].
        destruct (le_total x y Hx Hy); congruence.
Qed.

(** The head of [mode xs] is the smallest of the most frequent values. *)
Lemma mode_head (xs : list A) :
  existsb notna xs = true ->
  exists m rest, mode xs = m :: rest /\ smallest_most_frequent m xs.
Proof.
  intros Hex. unfold mode.
  set (present := filter notna xs).
  set (vals := unique present).
  set (top := max_count vals present).
  set (cand := filter (fun v => Nat.eqb (occurrences v present) top) vals).
  assert (Hpres : forall v, In v present <-> In v xs /\ isna v = false).
  { intros v. unfold present. rewrite filter_In. unfold notna.
    rewrite negb_true_iff. tauto. }
  assert (Hvals : forall v, In v vals -> In v xs /\ isna v = false).
  { intros v Hv. apply Hpres. apply unique_In. exact Hv. }
  assert (Hcand : forall v, In v cand <->
                            In v vals /\ occurrences v present = top).
  { intros v. unfold cand. rewrite filter_In, Nat.eqb_eq. tauto. }
  assert (Hocc : forall v, isna v = false ->
                           occurrences v present = occurrences v xs).
  { intros v Hv. apply occurrences_present. exact Hv. }
  assert (Hne : vals <> []).
  { apply existsb_exists in Hex. destruct Hex as (x & Hx & Hnx).
    unfold notna in Hnx. apply negb_true_iff in Hnx.
    destruct (unique_cover x present) as (u & Hu & _);
      [apply Hpres; auto|].
    fold vals in Hu. intros E. rewrite E in Hu. destruct Hu. }
  destruct (max_count_attained vals present Hne) as (w & Hw & Ew).
  fold top in Ew.
  destruct (sort cand) as [|m rest] eqn:Es.
  { assert (Hin : In w (sort cand)) by (apply sort_In, Hcand; auto).
    rewrite Es in Hin. destruct Hin. }
  exists m, rest. split; [reflexivity|].
  assert (Hm : In m cand) by (apply sort_In; rewrite Es; left; reflexivity).
  apply Hcand in Hm. destruct Hm as [Hmv Hmt].
  destruct (Hvals m Hmv) as [Hmx Hmp].
  rewrite Hocc in Hmt by exact Hmp.
  assert (Hleast : forall v, In v cand -> le m v = true).
  { apply (sort_head_least cand m rest); [|exact Es].
    intros v Hv. apply Hcand in Hv. apply Hvals. tauto. }
  split; [split; [exact Hmx | split; [exact Hmp|]]|].
  - intros v Hv Hvp.
    destruct (unique_cover v present) as (u & Hu & E); [apply Hpres; auto|].
    fold vals in Hu.
    rewrite <- (Hocc v Hvp), <- (occurrences_hkey u v _ E).
    rewrite Hmt. apply max_count_ge. exact Hu.
  - intros v Hv Hvp Htie.
    destruct (unique_cover v present) as (u & Hu & E); [apply Hpres; auto|].
    fold vals in Hu.
    assert (Hup : isna u = false) by (apply Hvals; exact Hu).
    apply (le_trans m u v); auto.
    + apply Hleast. apply Hcand. split; [exact Hu|].
      rewrite (occurrences_hkey u v _ E), Hocc by exact Hvp.
      congruence.
    + apply le_hkey; auto.
Qed.

(** Without a present value [mode] is empty. *)
Lemma mode_all_na (xs : list A) : existsb notna xs = false -> mode xs = [].
Proof.
  intros Hex. unfold mode.
  assert (E : filter notna xs = []).
  { induction xs as [|x xs IH]; cbn in *; [reflexivity|].
    apply orb_false_iff in Hex. destruct Hex as [-> Hex]. auto. }
  rewrite E. reflexivity.
Qed.

End ModeFacts.

(** ** Columns seen as lists of scalars *)

Section ScalarView.
Context {A : Type} `{Elt A}.
Variable e : A -> scalar.
Hypothesis e_isna : forall x, isna (e x) = isna x.
Hypothesis e_hkey : forall x, hkey (e x) = hkey x.
Hypothesis e_le : forall x y,
  isna x = false -> isna y = false -> le (e x) (e y) = le x y.

Lemma occurrences_view (v : A) (xs : list A) :
  occurrences (e v) (map e xs) = occurrences v xs.
Proof.
  unfold occurrences.
  assert (E : filter (same (e v)) (map e xs) = map e (filter (same v) xs)).
  { induction xs as [|x xs IH]; [reflexivity|].
    cbn [map filter]. rewrite IH. unfold same. rewrite !e_hkey.
    destruct (key_eqb (hkey v) (hkey x)); reflexivity. }
  rewrite E. apply length_map.
Qed.

Lemma smallest_most_frequent_view (m : A) (xs : list A) :
  smallest_most_frequent m xs -> smallest_most_frequent (e m) (map e xs).
Proof.
  intros [(Hin & Hp & Hmax) Hle]. repeat split.
  - apply in_map. exact Hin.
  - rewrite e_isna. exact Hp.
  - intros v Hv Hvp. apply in_map_iff in Hv. destruct Hv as (a & <- & Ha).
    rewrite e_isna in Hvp. rewrite !occurrences_view. auto.
  - intros v Hv Hvp. apply in_map_iff in Hv. destruct Hv as (a & <- & Ha).
    rewrite e_isna in Hvp. rewrite !occurrences_view, e_le by assumption.
    auto.
Qed.

Lemma fillna_view (v : A) (xs : list A) :
  fillna (e v) (map e xs) = map e (fillna v xs).
Proof.
  unfold fillna. rewrite !map_map. apply map_ext. intros x. cbv beta.
  rewrite e_isna. destruct (isna x); reflexivity.
Qed.

Lemma any_na_view (xs : list A) : any_na (map e xs) = any_na xs.
Proof.
  unfold any_na. induction xs as [|x xs IH]; [reflexivity|].
  cbn [map existsb]. rewrite e_isna, IH. reflexivity.
Qed.

End ScalarView.

Lemma scalar_of_object_isna (c : option string) :
  isna (scalar_of_object c) = isna c.
Proof. destruct c; reflexivity. Qed.

Lemma scalar_of_object_hkey (c : option string) :
  hkey (scalar_of_object c) = hkey c.
Proof. destruct c; reflexivity. Qed.

Lemma scalar_of_object_le (x y : option string) :
  isna x = false -> isna y = false ->
  le (scalar_of_object x) (scalar_of_object y) = le x y.
Proof. destruct x, y; cbn; congruence. Qed.

Lemma existsb_map_comp {X Y : Type} (f : Y -> bool) (g : X -> Y) (l : list X) :
  existsb f (map g l) = existsb (fun x => f (g x)) l.
Proof.
  induction l as [|x l IH]; cbn; [reflexivity|]. rewrite IH. reflexivity.
Qed.

Lemma Series_isnull_cells (s : Series) :
  Series_isnull s = map isna (Series_cells s).
Proof.
  destruct s; cbn; rewrite map_map; apply map_ext; intros x;
    try reflexivity.
  symmetry. apply scalar_of_object_isna.
Qed.

Lemma Series_mode_cells (s : Series) :
  0 < Series_count s ->
  exists m rest, Series_mode s = m :: rest /\
                 smallest_most_frequent m (Series_cells s).
Proof.
  unfold Series_count, count_true. intros Hc.
  assert (Hex : existsb negb (Series_isnull s) = true).
  { destruct (filter _ _) as [|b l] eqn:E in Hc; [cbn in Hc; lia|].
    assert (Hb : In b (b :: l)) by (left; reflexivity).
    rewrite <- E in Hb. apply filter_In in Hb. destruct Hb as [Hb ->].
    apply in_map_iff in Hb. destruct Hb as (c & Hc1 & Hc2).
    apply existsb_exists. exists c. auto. }
  clear Hc.
  destruct s as [v|v|v|v]; unfold Series_isnull in Hex;
    rewrite existsb_map_comp in Hex; change (existsb notna v = true) in Hex;
    destruct (mode_head v Hex) as (m & rest & Em & Hm); cbn; rewrite Em;
    eexists; eexists; (split; [reflexivity|]).
  - apply (smallest_most_frequent_view PyInt); auto.
  - apply (smallest_most_frequent_view PyFloat); auto.
  - apply (smallest_most_frequent_view scalar_of_object);
      auto using scalar_of_object_isna, scalar_of_object_hkey,
                 scalar_of_object_le.
  - apply (smallest_most_frequent_view PyBool); auto.
Qed.

(** ** The cleaning handler in closed form *)

Lemma getitem_KeyError (col : label) (df : DataFrame) (e : exn) :
  getitem col df = inl e -> e = KeyError col.
Proof.
  induction df as [|[l s] df IH]; cbn; [congruence|].
  destruct (label_eqb l col); [discriminate | exact IH].
Qed.

Lemma apply_cleaning_absent (fill_method : method) (col : label) (df : DataFrame) (e : exn) :
  getitem col df = inl e ->
  apply_cleaning fill_method col df = (df, [], inl (KeyError col)).
Proof.
  intros E. pose proof (getitem_KeyError _ _ _ E) as ->.
  destruct fill_method; unfold apply_cleaning, dropna_inplace, col_, bind,
    get, lift, dropna; rewrite E; reflexivity.
Qed.

Lemma apply_cleaning_DropRows (col : label) (df : DataFrame) (s : Series) :
  getitem col df = inr s ->
  apply_cleaning DropRows col df =
    (df_mask (map negb (Series_isnull s)) df,
     [success_cleaned col DropRows], inr tt).
Proof.
  intros E. unfold apply_cleaning, dropna_inplace, bind, get, lift, dropna,
    put, emit. rewrite E. reflexivity.
Qed.

Lemma apply_cleaning_fill (fill_method : method) (col : label) (df : DataFrame) (s : Series) :
  fill_method <> DropRows ->
  getitem col df = inr s ->
  apply_cleaning fill_method col df =
    match fill_value fill_method s with
    | inl e => (df, [], inl e)
    | inr v => (setitem col (Series_fillna v s) df,
                [success_cleaned col fill_method], inr tt)
    end.
Proof.
  intros Hm E. unfold fill_value.
  destruct fill_method; try congruence;
    unfold apply_cleaning, fillna_inplace, col_, bind, get, lift, put, emit,
      ret; rewrite E;
    destruct (dtype_in (Series_dtype s) [int64; float64]);
    rewrite ?E;
    try (destruct (Series_mean s); rewrite ?E; reflexivity);
    try (destruct (Series_median s); rewrite ?E; reflexivity);
    destruct (Series_mode0 s); rewrite ?E; reflexivity.
Qed.

(** ** Masks, columns and rows *)

Lemma mask_length_le {X : Type} (m : list bool) (xs : list X) :
  List.length (mask m xs) <= List.length xs.
Proof.
  revert xs. induction m as [|b m IH]; intros [|x xs]; cbn; try lia.
  specialize (IH xs). destruct b; cbn; lia.
Qed.

Lemma mask_length {X : Type} (m : list bool) (xs : list X) :
  List.length m = List.length xs -> List.length (mask m xs) = count_true m.
Proof.
  unfold count_true. revert xs.
  induction m as [|b m IH]; intros [|x xs]; cbn; try congruence.
  intros [= E]. destruct b; cbn; rewrite (IH xs E); reflexivity.
Qed.

Lemma mask_map {X Y : Type} (f : X -> Y) (m : list bool) (xs : list X) :
  mask m (map f xs) = map f (mask m xs).
Proof.
  revert xs. induction m as [|b m IH]; intros [|x xs]; cbn; try reflexivity.
  rewrite IH. destruct b; reflexivity.
Qed.

Lemma mask_all_true {X : Type} (m : list bool) (xs : list X) :
  List.length m = List.length xs -> forallb (fun b => b) m = true ->
  mask m xs = xs.
Proof.
  revert xs. induction m as [|b m IH]; intros [|x xs]; cbn; try congruence.
  intros [= E] Hb. apply andb_true_iff in Hb. destruct Hb as [-> Hb].
  rewrite (IH xs E Hb). reflexivity.
Qed.

Lemma Series_mask_cells (m : list bool) (s : Series) :
  Series_cells (Series_mask m s) = mask m (Series_cells s).
Proof. destruct s; cbn; symmetry; apply mask_map. Qed.

Lemma Series_mask_keys (m : list bool) (s : Series) :
  Series_keys (Series_mask m s) = mask m (Series_keys s).
Proof. destruct s; cbn; symmetry; apply mask_map. Qed.

Lemma Series_mask_dtype (m : list bool) (s : Series) :
  Series_dtype (Series_mask m s) = Series_dtype s.
Proof. destruct s; reflexivity. Qed.

Lemma Series_len_cells (s : Series) :
  Series_len s = List.length (Series_cells s).
Proof. destruct s; cbn; rewrite length_map; reflexivity. Qed.

Lemma Series_len_keys (s : Series) :
  Series_len s = List.length (Series_keys s).
Proof. destruct s; cbn; rewrite length_map; reflexivity. Qed.

Lemma Series_mask_len_le (m : list bool) (s : Series) :
  Series_len (Series_mask m s) <= Series_len s.
Proof.
  rewrite !Series_len_cells, Series_mask_cells. apply mask_length_le.
Qed.

Lemma Series_fillna_len (v : scalar) (s : Series) :
  Series_len (Series_fillna v s) = Series_len s.
Proof.
  destruct s, v; cbn; unfold fillna; rewrite ?length_map; reflexivity.
Qed.

Lemma Series_fillna_dtype (v : scalar) (s : Series) :
  Series_dtype (Series_fillna v s) = Series_dtype s.
Proof. destruct s, v; reflexivity. Qed.

Lemma columns_df_mask (m : list bool) (df : DataFrame) :
  columns (df_mask m df) = columns df.
Proof. unfold columns, df_mask. rewrite map_map. reflexivity. Qed.

Lemma dtypes_df_mask (m : list bool) (df : DataFrame) :
  dtypes (df_mask m df) = dtypes df.
Proof.
  unfold dtypes, df_mask. rewrite map_map. apply map_ext.
  intros c. apply Series_mask_dtype.
Qed.

Lemma nrows_df_mask_le (m : list bool) (df : DataFrame) :
  nrows (df_mask m df) <= nrows df.
Proof.
  destruct df as [|[l s] df]; cbn; [lia | apply Series_mask_len_le].
Qed.

Lemma columns_setitem (col : label) (s : Series) (df : DataFrame) :
  columns (setitem col s df) = columns df.
Proof.
  induction df as [|[l s0] df IH]; cbn; [reflexivity|].
  destruct (label_eqb l col); cbn; [reflexivity|].
  unfold columns in IH. rewrite IH. reflexivity.
Qed.

Lemma dtypes_setitem (col : label) (s s' : Series) (df : DataFrame) :
  getitem col df = inr s -> Series_dtype s' = Series_dtype s ->
  dtypes (setitem col s' df) = dtypes df.
Proof.
  intros E Hd. induction df as [|[l s0] df IH]; cbn in *; [reflexivity|].
  destruct (label_eqb l col); cbn.
  - injection E as ->. rewrite Hd. reflexivity.
  - unfold dtypes in IH. rewrite (IH E). reflexivity.
Qed.

Lemma nrows_setitem (col : label) (s s' : Series) (df : DataFrame) :
  getitem col df = inr s -> Series_len s' = Series_len s ->
  nrows (setitem col s' df) = nrows df.
Proof.
  intros E Hl. destruct df as [|[l s0] df]; cbn in *; [reflexivity|].
  destruct (label_eqb l col); cbn; [|reflexivity].
  injection E as ->. exact Hl.
Qed.

Lemma getitem_setitem_same (col : label) (s s' : Series) (df : DataFrame) :
  getitem col df = inr s -> getitem col (setitem col s' df) = inr s'.
Proof.
  induction df as [|[l s0] df IH]; cbn; [discriminate|].
  destruct (label_eqb l col) eqn:E; cbn; rewrite E; auto.
Qed.

Lemma getitem_setitem_other (col c : label) (s' : Series) (df : DataFrame) :
  c <> col -> getitem c (setitem col s' df) = getitem c df.
Proof.
  intros Hc. induction df as [|[l s0] df IH]; cbn; [reflexivity|].
  destruct (label_eqb l col) eqn:E; cbn.
  - apply label_eqb_eq in E. subst l.
    destruct (label_eqb col c) eqn:E'; [|reflexivity].
    apply label_eqb_eq in E'. congruence.
  - rewrite IH. reflexivity.
Qed.


Lemma getitem_In (col : label) (df : DataFrame) (s : Series) :
  getitem col df = inr s -> In (col, s) df.
Proof.
  induction df as [|[l s0] df IH]; cbn; [discriminate|].
  destruct (label_eqb l col) eqn:E; [|auto].
  apply label_eqb_eq in E. intros [= ->]. left. congruence.
Qed.

Lemma In_getitem (col : label) (df : DataFrame) :
  In col (columns df) -> exists s, getitem col df = inr s.
Proof.
  induction df as [|[l s0] df IH]; cbn; [tauto|].
  destruct (label_eqb l col) eqn:E; [eauto|].
  intros [->|Hin]; [rewrite label_eqb_refl in E; discriminate | auto].
Qed.

Lemma aligned_len (df : DataFrame) (c : label * Series) :
  aligned df = true -> In c df -> Series_len (snd c) = nrows df.
Proof.
  unfold aligned. rewrite forallb_forall. intros Ha Hin.
  apply Nat.eqb_eq. apply Ha. exact Hin.
Qed.

(** Taking the rows of the masked columns is masking the rows. *)
Lemma rows_of_mask (m : list bool) (cols : list (list key)) :
  (forall c, In c cols -> List.length c = List.length m) ->
  rows_of (count_true m) (map (mask m) cols)
  = mask m (rows_of (List.length m) cols).
Proof.
  revert cols. induction m as [|b m IH]; intros cols Hlen; [reflexivity|].
  assert (Htl : forall c, In c (map (@tl key) cols) ->
                          List.length c = List.length m).
  { intros c Hc. apply in_map_iff in Hc. destruct Hc as (c0 & <- & Hc0).
    specialize (Hlen c0 Hc0). destruct c0; cbn in *; lia. }
  assert (Hmask : map (mask (b :: m)) cols
                  = if b
                    then map (fun c => hd KNA c :: mask m (tl c)) cols
                    else map (mask m) (map (@tl key) cols)).
  { destruct b; [|rewrite map_map]; apply map_ext_in; intros c Hc;
      specialize (Hlen c Hc); destruct c; cbn in *; try lia; reflexivity. }
  rewrite Hmask. cbn [List.length rows_of mask]. destruct b.
  - change (count_true (true :: m)) with (S (count_true m)).
    cbn [rows_of]. rewrite !map_map. cbn [hd tl].
    rewrite <- (IH _ Htl), map_map. reflexivity.
  - change (count_true (false :: m)) with (count_true m).
    apply IH. exact Htl.
Qed.

Lemma rows_length (df : DataFrame) : List.length (rows df) = nrows df.
Proof.
  unfold rows. generalize (map (fun c => Series_keys (snd c)) df).
  induction (nrows df) as [|n IH]; intros cols; cbn; [reflexivity|].
  rewrite IH. reflexivity.
Qed.

Lemma rows_df_mask (m : list bool) (df : DataFrame) :
  aligned df = true -> List.length m = nrows df ->
  rows (df_mask m df) = mask m (rows df).
Proof.
  intros Ha Hm. unfold rows.
  assert (Hn : nrows (df_mask m df) = count_true m \/ df = []).
  { destruct df as [|[l s] df]; [right; reflexivity|left]. cbn.
    rewrite Series_len_cells, Series_mask_cells. apply mask_length.
    rewrite <- Series_len_cells. exact Hm. }
  destruct Hn as [Hn| ->].
  - rewrite Hn, <- Hm. unfold df_mask. rewrite map_map. cbn [snd].
    rewrite <- rows_of_mask.
    + rewrite map_map. f_equal. apply map_ext. intros c.
      apply Series_mask_keys.
    + intros c Hc. apply in_map_iff in Hc. destruct Hc as (c0 & <- & Hc0).
      rewrite <- Series_len_keys, Hm. apply aligned_len; assumption.
  - cbn in *. destruct m; [reflexivity | discriminate].
Qed.

(** ** Duplicate rows *)

Lemma duplicated_from_length (seen rs : list (list key)) :
  List.length (duplicated_from seen rs) = List.length rs.
Proof.
  revert seen. induction rs as [|r rs IH]; intros seen; cbn; [reflexivity|].
  destruct (existsb (row_eqb r) seen); cbn; rewrite IH; reflexivity.
Qed.

Lemma existsb_row_eqb (r : list key) (seen : list (list key)) :
  existsb (row_eqb r) seen = true <-> In r seen.
Proof.
  rewrite existsb_exists. split.
  - intros (x & Hx & E). apply row_eqb_eq in E. congruence.
  - intros Hin. exists r. split; [exact Hin | apply row_eqb_eq; reflexivity].
Qed.

(** A row is flagged exactly when it is in the table already or equals an
    earlier row of the pass. *)
Lemma duplicated_from_nth (seen rs : list (list key)) (i : nat) :
  i < List.length rs ->
  nth i (duplicated_from seen rs) false = true <->
  In (nth i rs []) seen \/ exists j, j < i /\ nth j rs [] = nth i rs [].
Proof.
  revert seen i. induction rs as [|r rs IH]; intros seen i Hi; cbn in Hi;
    [lia|].
  cbn [duplicated_from].
  destruct (existsb (row_eqb r) seen) eqn:Ex.
  - apply existsb_row_eqb in Ex. destruct i as [|i]; cbn [nth].
    + split; [auto|reflexivity].
    + rewrite IH by lia. split.
      * intros [Hs|(j & Hj & E)]; [auto|].
        right. exists (S j). split; [lia | exact E].
      * intros [Hs|(j & Hj & E)]; [auto|].
        destruct j as [|j]; cbn in E.
        -- left. rewrite <- E. exact Ex.
        -- right. exists j. split; [lia | exact E].
  - assert (Hn : ~ In r seen).
    { intros Hin. apply existsb_row_eqb in Hin. congruence. }
    destruct i as [|i]; cbn [nth].
    + split; [discriminate|].
      intros [Hs|(j & Hj & _)]; [contradiction | lia].
    + rewrite IH by lia. cbn [In]. split.
      * intros [[E|Hs]|(j & Hj & E)]; [| auto |].
        -- right. exists 0. split; [lia | exact E].
        -- right. exists (S j). split; [lia | exact E].
      * intros [Hs|(j & Hj & E)]; [auto|].
        destruct j as [|j]; cbn in E.
        -- left. left. exact E.
        -- right. exists j. split; [lia | exact E].
Qed.

Lemma duplicated_length (df : DataFrame) :
  List.length (duplicated df) = nrows df.
Proof. unfold duplicated. rewrite duplicated_from_length. apply rows_length. Qed.

Lemma count_true_zero (m : list bool) :
  count_true m = 0 -> forallb (fun b => b) (map negb m) = true.
Proof.
  unfold count_true. induction m as [|b m IH]; cbn; [reflexivity|].
  destruct b; cbn; [discriminate | exact IH].
Qed.

Lemma Series_mask_all_true (m : list bool) (s : Series) :
  List.length m = Series_len s -> forallb (fun b => b) m = true ->
  Series_mask m s = s.
Proof.
  destruct s; cbn; intros Hl Hm; f_equal; apply mask_all_true; assumption.
Qed.

Lemma df_mask_all_true (m : list bool) (df : DataFrame) :
  aligned df = true -> List.length m = nrows df ->
  forallb (fun b => b) m = true -> df_mask m df = df.
Proof.
  intros Ha Hl Hm. unfold df_mask.
  rewrite <- (map_id df) at 2. apply map_ext_in. intros [l s] Hin. cbn.
  f_equal. apply Series_mask_all_true; [|exact Hm].
  rewrite Hl. symmetry. apply (aligned_len df (l, s)); assumption.
Qed.

Lemma remove_duplicates_exec (w : widgets) (df : DataFrame) :
  aligned df = true -> remove_duplicates_clicked w = true ->
  exec (remove_duplicates w) df = drop_duplicates df.
Proof.
  intros Ha Hc. unfold exec, remove_duplicates, bind, get, when, emit,
    drop_duplicates_inplace, put. rewrite Hc.
  destruct (Nat.ltb 0 (count_true (duplicated df))) eqn:E; [reflexivity|].
  cbn. apply Nat.ltb_ge in E. unfold drop_duplicates. symmetry.
  apply df_mask_all_true.
  - exact Ha.
  - rewrite length_map. apply duplicated_length.
  - apply count_true_zero. lia.
Qed.

Lemma Forall2_df_mask (m : list bool) (df : DataFrame) :
  Forall2 (fun c c' => fst c' = fst c /\
                       Series_dtype (snd c') = Series_dtype (snd c) /\
                       Series_cells (snd c') = mask m (Series_cells (snd c)))
          df (df_mask m df).
Proof.
  induction df as [|[l s] df IH]; cbn; constructor; [|exact IH].
  cbn. auto using Series_mask_dtype, Series_mask_cells.
Qed.

(** ** Filling a column *)

Lemma fillna_no_na {A : Type} `{Elt A} (v : A) (xs : list A) :
  any_na xs = false -> fillna v xs = xs.
Proof.
  unfold any_na, fillna. induction xs as [|x xs IH]; cbn; [reflexivity|].
  intros E. apply orb_false_iff in E. destruct E as [-> E].
  rewrite (IH E). reflexivity.
Qed.

Lemma any_na_fillna {A : Type} `{Elt A} (v : A) (xs : list A) :
  isna v = false -> any_na (fillna v xs) = false.
Proof.
  intros Hv. unfold any_na, fillna.
  induction xs as [|x xs IH]; cbn [map existsb]; [reflexivity|].
  rewrite IH. destruct (isna x) eqn:E; rewrite ?Hv, ?E; reflexivity.
Qed.

Lemma count_true_no_na {A : Type} `{Elt A} (xs : list A) :
  any_na xs = false -> count_true (map isna xs) = 0.
Proof.
  unfold any_na, count_true.
  induction xs as [|x xs IH]; cbn [map existsb filter]; [reflexivity|].
  intros E. apply orb_false_iff in E. destruct E as [-> E]. auto.
Qed.

Lemma any_na_const_false {X : Type} (f : X -> scalar) (xs : list X) :
  (forall x, isna (f x) = false) -> any_na (map f xs) = false.
Proof.
  intros Hf. unfold any_na.
  induction xs as [|x xs IH]; cbn [map existsb]; [reflexivity|].
  rewrite Hf, IH. reflexivity.
Qed.

Lemma Series_fillna_cells (v : scalar) (s : Series) :
  fits v s = true ->
  Series_cells (Series_fillna v s) = fillna v (Series_cells s).
Proof.
  destruct s as [xs|xs|xs|xs], v; cbn [fits]; try discriminate; intros _;
    cbn [Series_fillna Series_cells];
    try (symmetry; apply fillna_no_na, any_na_const_false; reflexivity).
  - symmetry. apply (fillna_view PyFloat). reflexivity.
  - symmetry.
    apply (fillna_view scalar_of_object scalar_of_object_isna (Some s) xs).
Qed.

Lemma present_cell_fits (v : scalar) (s : Series) :
  In v (Series_cells s) -> isna v = false -> fits v s = true.
Proof.
  destruct s as [xs|xs|xs|xs]; cbn [Series_cells fits]; intros Hin Hv;
    apply in_map_iff in Hin; destruct Hin as (x & <- & _); try reflexivity.
  destruct x; [reflexivity | discriminate].
Qed.

Lemma Series_count_pos (s : Series) :
  0 < Series_count s <-> existsb negb (Series_isnull s) = true.
Proof.
  unfold Series_count, count_true.
  induction (Series_isnull s) as [|b l IH]; cbn; [split; [lia|discriminate]|].
  destruct b; cbn; [exact IH | split; [reflexivity | lia]].
Qed.

Lemma Series_mode0_present (s : Series) :
  0 < Series_count s ->
  exists v, Series_mode0 s = inr v /\
            smallest_most_frequent v (Series_cells s).
Proof.
  intros Hc. destruct (Series_mode_cells s Hc) as (m & rest & E & Hm).
  exists m. unfold Series_mode0. rewrite E. auto.
Qed.

Lemma Series_mode0_absent (s : Series) :
  Series_count s = 0 -> Series_mode0 s = inl (KeyError (LInt 0)).
Proof.
  intros Hc.
  assert (Hex : existsb negb (Series_isnull s) = false).
  { destruct (existsb negb (Series_isnull s)) eqn:E; [|reflexivity].
    apply Series_count_pos in E. lia. }
  unfold Series_mode0, Series_mode.
  destruct s as [v|v|v|v]; unfold Series_isnull in Hex;
    rewrite existsb_map_comp in Hex;
    rewrite (mode_all_na v Hex); reflexivity.
Qed.

(** The value the handler fills with is of the kind of the column. *)
Lemma fill_value_fits (fill_method : method) (s : Series) (v : scalar) :
  fill_value fill_method s = inr v -> isna v = false -> fits v s = true.
Proof.
  unfold fill_value.
  destruct (dtype_in (Series_dtype s) [int64; float64]) eqn:Hd.
  - destruct s as [xs|xs|xs|xs]; try discriminate Hd;
      destruct fill_method; cbn [Series_mean Series_median fits];
      try (intros [= <-]; reflexivity);
      try (intros _ _; reflexivity);
      unfold Series_mode0, Series_mode;
      destruct (mode xs); cbn [map]; try discriminate;
      intros [= <-]; reflexivity.
  - intros E Hv.
    destruct (Nat.eq_dec (Series_count s) 0) as [Hc|Hc].
    + rewrite (Series_mode0_absent s Hc) in E. discriminate.
    + destruct (Series_mode0_present s) as (m & Em & (Hin & _) & _); [lia|].
      rewrite Em in E. injection E as <-.
      apply present_cell_fits; assumption.
Qed.

(** ** The cleaner *)

(** Mode tie-break of the text column [y, x, (missing), y, x]: both values
    occur twice and [y] is met first, but [mode()[0]] is [x], the first of
    the sorted modes, and the handler fills the missing cell with [x]. *)
Lemma mode_tie_is_not_first_met :
  let s := ObjectSeries [Some "y"; Some "x"; None; Some "y"; Some "x"]%string in
  let df := [(LStr "c", s)] in
  Series_mode0 s = inr (PyStr "x")
  /\ apply_cleaning Mode (LStr "c") df
     = ([(LStr "c",
          ObjectSeries [Some "y"; Some "x"; Some "x"; Some "y"; Some "x"]%string)],
        [success_cleaned (LStr "c") Mode], inr tt)
  /\ most_frequent (PyStr "x") (Series_cells s)
  /\ ~ first_met_most_frequent (PyStr "x") (Series_cells s).
Proof.
  cbv zeta. split; [reflexivity|]. split; [reflexivity|]. split.
  - split; [cbn; auto|]. split; [reflexivity|].
    intros v Hv _. cbn in Hv.
    decompose [or] Hv; subst; try contradiction; vm_compute; lia.
  - intros [_ Hfirst].
    specialize (Hfirst (PyStr "y")). vm_compute in Hfirst.
    assert (H01 : 1 <= 0) by (apply Hfirst; auto). lia.
Qed.

(** C1 (as amended).  A Mode imputation of a column with a present value
    fills with the most frequent present value; among values tied for most
    frequent it takes the smallest in sort order (the first of pandas'
    sorted modes), whatever their order in the rows. *)
Theorem mode_fill_value_is_smallest_most_frequent
    (df : DataFrame) (col : label) (s : Series) :
  getitem col df = inr s ->
  0 < Series_count s ->
  exists v,
    fill_value Mode s = inr v
    /\ smallest_most_frequent v (Series_cells s)
    /\ apply_cleaning Mode col df
       = (setitem col (Series_fillna v s) df,
          [success_cleaned col Mode], inr tt)
    /\ Series_cells (Series_fillna v s)
       = map (fun c => if isna c then v else c) (Series_cells s).
Proof.
  intros E Hc. destruct (Series_mode0_present s Hc) as (v & Ev & Hv).
  assert (Hf : fill_value Mode s = inr v).
  { unfold fill_value. destruct (dtype_in _ _); exact Ev. }
  exists v. split; [exact Hf|]. split; [exact Hv|]. split.
  - rewrite (apply_cleaning_fill Mode col df s) by (congruence || exact E).
    rewrite Hf. reflexivity.
  - apply Series_fillna_cells. destruct Hv as [(Hin & Hp & _) _].
    apply present_cell_fits; assumption.
Qed.

Lemma mode_fill_value_is_smallest_most_frequent_witness :
  exists v,
    fill_value Mode (ObjectSeries [Some "x"; Some "y"; Some "x"; Some "y"]%string)
    = inr v
    /\ smallest_most_frequent v
         (Series_cells (ObjectSeries [Some "x"; Some "y"; Some "x"; Some "y"]%string))
    /\ apply_cleaning Mode (LStr "c")
         [(LStr "c", ObjectSeries [Some "x"; Some "y"; Some "x"; Some "y"]%string)]
       = (setitem (LStr "c")
            (Series_fillna v
               (ObjectSeries [Some "x"; Some "y"; Some "x"; Some "y"]%string))
            [(LStr "c", ObjectSeries [Some "x"; Some "y"; Some "x"; Some "y"]%string)],
          [success_cleaned (LStr "c") Mode], inr tt)
    /\ Series_cells
         (Series_fillna v
            (ObjectSeries [Some "x"; Some "y"; Some "x"; Some "y"]%string))
       = map (fun c => if isna c then v else c)
           (Series_cells (ObjectSeries [Some "x"; Some "y"; Some "x"; Some "y"]%string)).
Proof.
  apply (mode_fill_value_is_smallest_most_frequent
           [(LStr "c", ObjectSeries [Some "x"; Some "y"; Some "x"; Some "y"]%string)]
           (LStr "c")).
  - reflexivity.
  - vm_compute. lia.
Defined.

(** The spec's example: the mode of [x, y, x, y] is [x]. *)
Example mode_example :
  Series_mode0 (ObjectSeries [Some "x"; Some "y"; Some "x"; Some "y"]%string)
  = inr (PyStr "x").
Proof. reflexivity. Qed.

(** Drop Rows on a text column: the row with the missing cell is removed,
    nothing is filled with the mode. *)
Lemma drop_rows_on_text_is_not_mode_fill :
  let s := ObjectSeries [Some "a"; None; Some "a"]%string in
  let df := [(LStr "c", s); (LStr "n", Int64Series [1; 2; 3]%Z)] in
  dtype_in (Series_dtype s) [int64; float64] = false
  /\ exec (apply_cleaning DropRows (LStr "c")) df
     = [(LStr "c", ObjectSeries [Some "a"; Some "a"]%string);
        (LStr "n", Int64Series [1; 3]%Z)]
  /\ exec (apply_cleaning Mode (LStr "c")) df
     = [(LStr "c", ObjectSeries [Some "a"; Some "a"; Some "a"]%string);
        (LStr "n", Int64Series [1; 2; 3]%Z)]
  /\ exec (apply_cleaning DropRows (LStr "c")) df
     <> exec (apply_cleaning Mode (LStr "c")) df.
Proof.
  cbv zeta. split; [reflexivity|]. split; [reflexivity|].
  split; [reflexivity|]. vm_compute. discriminate.
Qed.

(** C2 (as amended).  For a column that is not [int64]/[float64] and any of
    the three fill methods, the requested method is ignored: the handler
    fills the missing cells with [mode()[0]] of the column, the smallest of
    its most frequent values, and reports the requested method.  When the
    column has no present value the lookup of the mode raises and the table
    is left as it was.  (Drop Rows is not a fill: it is dispatched before
    the dtype is looked at.) *)
Theorem categorical_fill_uses_mode
    (fill_method : method) (df : DataFrame) (col : label) (s : Series) :
  getitem col df = inr s ->
  dtype_in (Series_dtype s) [int64; float64] = false ->
  fill_method <> DropRows ->
  match Series_mode0 s with
  | inr v =>
      smallest_most_frequent v (Series_cells s)
      /\ apply_cleaning fill_method col df
         = (setitem col (Series_fillna v s) df,
            [success_cleaned col fill_method], inr tt)
      /\ Series_cells (Series_fillna v s)
         = map (fun c => if isna c then v else c) (Series_cells s)
  | inl e =>
      Series_count s = 0
      /\ apply_cleaning fill_method col df = (df, [], inl e)
  end.
Proof.
  intros E Hd Hm.
  assert (Hf : fill_value fill_method s = Series_mode0 s).
  { unfold fill_value. rewrite Hd. reflexivity. }
  rewrite (apply_cleaning_fill fill_method col df s Hm E), Hf.
  destruct (Nat.eq_dec (Series_count s) 0) as [Hc|Hc].
  - rewrite (Series_mode0_absent s Hc). auto.
  - destruct (Series_mode0_present s) as (v & Ev & Hv); [lia|].
    rewrite Ev. split; [exact Hv|]. split; [reflexivity|].
    apply Series_fillna_cells. destruct Hv as [(Hin & Hp & _) _].
    apply present_cell_fits; assumption.
Qed.

Lemma categorical_fill_uses_mode_witness :
  smallest_most_frequent (PyStr "a")
    (Series_cells (ObjectSeries [Some "b"; None; Some "a"; Some "a"]%string))
  /\ apply_cleaning Mean (LStr "c")
       [(LStr "c", ObjectSeries [Some "b"; None; Some "a"; Some "a"]%string)]
     = (setitem (LStr "c")
          (Series_fillna (PyStr "a")
             (ObjectSeries [Some "b"; None; Some "a"; Some "a"]%string))
          [(LStr "c", ObjectSeries [Some "b"; None; Some "a"; Some "a"]%string)],
        [success_cleaned (LStr "c") Mean], inr tt)
  /\ Series_cells
       (Series_fillna (PyStr "a")
          (ObjectSeries [Some "b"; None; Some "a"; Some "a"]%string))
     = map (fun c => if isna c then PyStr "a" else c)
         (Series_cells (ObjectSeries [Some "b"; None; Some "a"; Some "a"]%string)).
Proof.
  apply (categorical_fill_uses_mode Mean
           [(LStr "c", ObjectSeries [Some "b"; None; Some "a"; Some "a"]%string)]
           (LStr "c")
           (ObjectSeries [Some "b"; None; Some "a"; Some "a"]%string)).
  - reflexivity.
  - reflexivity.
  - discriminate.
Defined.

(** Mean on a [float64] column with no present value: the mean is [NaN],
    filling with [NaN] fills nothing, and the column still has its two
    missing cells although the page reports a success. *)
Lemma mean_fill_of_all_missing_column :
  let s := Float64Series [PrimFloat.nan; PrimFloat.nan] in
  let df := [(LStr "age", s)] in
  dtype_in (Series_dtype s) [int64; float64] = true
  /\ Series_mean s = inr PrimFloat.nan
  /\ apply_cleaning Mean (LStr "age") df
     = (df, [success_cleaned (LStr "age") Mean], inr tt)
  /\ count_true (Series_isnull s) = 2.
Proof. cbv zeta. repeat split; reflexivity. Qed.

(** C3 (as amended).  Mean on an [int64]/[float64] column whose mean is a
    number (so the column has a present value): every missing cell takes
    the mean, which is numpy's float64 sum of the column (missing cells
    counted as 0) over the number of present cells, every present cell is
    kept, no missing cell is left, and the other columns are not touched. *)
Theorem mean_fill_replaces_missing_cells
    (df : DataFrame) (col : label) (s : Series) (mu : float) :
  getitem col df = inr s ->
  dtype_in (Series_dtype s) [int64; float64] = true ->
  Series_mean s = inr mu ->
  PrimFloat.is_nan mu = false ->
  let df' := exec (apply_cleaning Mean col) df in
  apply_cleaning Mean col df = (df', [success_cleaned col Mean], inr tt)
  /\ match s with
     | Float64Series v =>
         mu = (np_sum (map nan_to_zero v)
               / float_of_nat (List.length (filter notna v)))%float
     | Int64Series v =>
         mu = (np_sum_cast float_of_Z v / float_of_nat (List.length v))%float
     | _ => True
     end
  /\ (exists s',
        getitem col df' = inr s'
        /\ Series_cells s'
           = map (fun c => if isna c then PyFloat mu else c) (Series_cells s)
        /\ count_true (Series_isnull s') = 0)
  /\ (forall c, c <> col -> getitem c df' = getitem c df).
Proof.
  intros E Hd Hmu Hnan.
  assert (Hf : fill_value Mean s = inr (PyFloat mu)).
  { unfold fill_value. rewrite Hd, Hmu. reflexivity. }
  assert (Hrun : apply_cleaning Mean col df
                 = (setitem col (Series_fillna (PyFloat mu) s) df,
                    [success_cleaned col Mean], inr tt)).
  { rewrite (apply_cleaning_fill Mean col df s) by (congruence || exact E).
    rewrite Hf. reflexivity. }
  assert (Hcells : Series_cells (Series_fillna (PyFloat mu) s)
                   = fillna (PyFloat mu) (Series_cells s)).
  { apply Series_fillna_cells. apply (fill_value_fits Mean); assumption. }
  cbv zeta. unfold exec. rewrite Hrun. cbn [fst].
  split; [reflexivity|]. split; [|split].
  - destruct s as [v|v|v|v]; try discriminate Hd;
      cbn [Series_mean] in Hmu; injection Hmu as <-;
      unfold imean, fmean in *;
      match goal with
      | |- context [Nat.eqb ?c 0] => destruct (Nat.eqb c 0)
      end; [discriminate Hnan | reflexivity | discriminate Hnan | reflexivity].
  - exists (Series_fillna (PyFloat mu) s).
    split; [apply (getitem_setitem_same col s); exact E|].
    split; [exact Hcells|].
    rewrite Series_isnull_cells, Hcells.
    apply count_true_no_na, any_na_fillna. exact Hnan.
  - intros c Hc. apply getitem_setitem_other. exact Hc.
Qed.

Lemma mean_fill_replaces_missing_cells_witness :
  apply_cleaning Mean (LStr "age")
    [(LStr "age", Float64Series [20; 30; PrimFloat.nan; 40]%float)]
  = ([(LStr "age", Float64Series [20; 30; 30; 40]%float)],
     [success_cleaned (LStr "age") Mean], inr tt).
Proof.
  apply (mean_fill_replaces_missing_cells
           [(LStr "age", Float64Series [20; 30; PrimFloat.nan; 40]%float)]
           (LStr "age")
           (Float64Series [20; 30; PrimFloat.nan; 40]%float)
           30%float);
    reflexivity.
Defined.

(** The spec's example: [age = [20, 30, null, 40]] becomes [[20, 30, 30, 40]]. *)
Example mean_fill_example :
  exec (apply_cleaning Mean (LStr "age"))
    [(LStr "age", Float64Series [20; 30; PrimFloat.nan; 40]%float)]
  = [(LStr "age", Float64Series [20; 30; 30; 40]%float)].
Proof. reflexivity. Qed.

Lemma nrows_df_mask (m : list bool) (df : DataFrame) :
  df <> [] -> List.length m = nrows df ->
  nrows (df_mask m df) = count_true m.
Proof.
  destruct df as [|[l s] df]; [congruence|]. intros _ Hm. cbn.
  rewrite Series_len_cells, Series_mask_cells. apply mask_length.
  rewrite <- Series_len_cells. exact Hm.
Qed.


Lemma rows_of_nth (n : nat) (cols : list (list key)) (i : nat) :
  i < n -> nth i (rows_of n cols) [] = map (fun c => nth i c KNA) cols.
Proof.
  revert cols i. induction n as [|n IH]; intros cols i Hi; [lia|].
  cbn [rows_of]. destruct i as [|i]; cbn [nth].
  - apply map_ext. intros [|k c]; reflexivity.
  - rewrite IH by lia. rewrite map_map. apply map_ext.
    intros [|k c]; [destruct i|]; reflexivity.
Qed.

Lemma Series_keys_cells (s : Series) :
  Series_keys s = map hkey (Series_cells s).
Proof.
  destruct s; cbn; rewrite map_map; apply map_ext; intros x;
    try reflexivity.
  symmetry. apply scalar_of_object_hkey.
Qed.

Lemma Series_keys_nth (s : Series) (i : nat) :
  nth i (Series_keys s) KNA = hkey (cell i s).
Proof.
  unfold cell. rewrite Series_keys_cells.
  change KNA with (hkey (PyFloat PrimFloat.nan)). apply map_nth.
Qed.

(** A row of keys is the row of the cells: two rows are equal exactly when
    they hold the same value in every column. *)
Lemma rows_same_cells (df : DataFrame) (i j : nat) :
  i < nrows df -> j < nrows df ->
  nth j (rows df) [] = nth i (rows df) [] <->
  forall c, In c df -> same_cell (cell j (snd c)) (cell i (snd c)) = true.
Proof.
  intros Hi Hj. unfold rows. rewrite !rows_of_nth by assumption.
  rewrite !map_map, map_ext_in_iff.
  split; intros H c Hc; specialize (H c Hc); cbv beta in *;
    rewrite !Series_keys_nth in *; apply hkey_same_cell; exact H.
Qed.

(** The rows that survive the pass are pairwise different, none of them was
    in the table before, and every row is in the table or survives. *)
Lemma kept_rows (seen rs : list (list key)) :
  let kept := mask (map negb (duplicated_from seen rs)) rs in
  NoDup kept
  /\ (forall r, In r kept -> ~ In r seen)
  /\ (forall r, In r rs -> In r seen \/ In r kept).
Proof.
  revert seen. induction rs as [|r rs IH]; intros seen; cbn zeta.
  - cbn. split; [constructor|]. split; tauto.
  - cbn [duplicated_from]. destruct (existsb (row_eqb r) seen) eqn:Ex;
      cbn [map negb mask].
    + destruct (IH seen) as (Hnd & Hnot & Hall).
      apply existsb_row_eqb in Ex.
      split; [exact Hnd|]. split; [exact Hnot|].
      intros x [<-|Hx]; auto.
    + destruct (IH (r :: seen)) as (Hnd & Hnot & Hall).
      assert (Hr : ~ In r seen).
      { intros Hin. apply existsb_row_eqb in Hin. congruence. }
      split; [|split].
      * constructor; [|exact Hnd].
        intros Hin. apply (Hnot r Hin). left. reflexivity.
      * intros x [<-|Hx]; [exact Hr|].
        intros Hin. apply (Hnot x Hx). right. exact Hin.
      * intros x [<-|Hx]; [right; left; reflexivity|].
        destruct (Hall x Hx) as [[<-|Hs]|Hk].
        -- right. left. reflexivity.
        -- left. exact Hs.
        -- right. right. exact Hk.
Qed.

(** C4.  Remove Duplicate Rows flags a row exactly when an earlier row
    holds the same value in every column; the table it leaves consists of
    the rows that are not flagged, in their order and with their cells as
    they were: no two of its rows are equal, and every row of the table
    before is still there. *)
Theorem drop_duplicates_keeps_first_occurrences
    (w : widgets) (df : DataFrame) :
  aligned df = true ->
  remove_duplicates_clicked w = true ->
  let dup := duplicated df in
  let df' := exec (remove_duplicates w) df in
  df' = df_mask (map negb dup) df
  /\ (forall i, i < nrows df ->
        (nth i dup false = true <->
         exists j, j < i /\
           forall c, In c df ->
             same_cell (cell j (snd c)) (cell i (snd c)) = true))
  /\ (forall i, i < nrows df ->
        (nth i dup false = true <->
         exists j, j < i /\ nth j (rows df) [] = nth i (rows df) []))
  /\ rows df' = mask (map negb dup) (rows df)
  /\ Forall2 (fun c c' =>
                fst c' = fst c
                /\ Series_dtype (snd c') = Series_dtype (snd c)
                /\ Series_cells (snd c')
                   = mask (map negb dup) (Series_cells (snd c)))
             df df'
  /\ NoDup (rows df')
  /\ (forall r, In r (rows df) -> In r (rows df')).
Proof.
  intros Ha Hc. cbv zeta. rewrite (remove_duplicates_exec w df Ha Hc).
  assert (Hrows : rows (drop_duplicates df)
                  = mask (map negb (duplicated df)) (rows df)).
  { apply rows_df_mask; [exact Ha|].
    rewrite length_map. apply duplicated_length. }
  assert (Hflag : forall i, i < nrows df ->
            (nth i (duplicated df) false = true <->
             exists j, j < i /\ nth j (rows df) [] = nth i (rows df) [])).
  { intros i Hi. unfold duplicated.
    rewrite duplicated_from_nth by (rewrite rows_length; exact Hi).
    cbn [In]. tauto. }
  destruct (kept_rows [] (rows df)) as (Hnd & _ & Hall).
  fold (duplicated df) in Hnd, Hall.
  split; [reflexivity|].
  split; [|split; [exact Hflag|]].
  - intros i Hi. rewrite (Hflag i Hi).
    split; intros (j & Hj & E); exists j; (split; [exact Hj|]);
      apply (rows_same_cells df i j); (assumption || lia).
  - split; [exact Hrows|]. split; [apply Forall2_df_mask|]. split.
    + rewrite Hrows. exact Hnd.
    + rewrite Hrows. intros r Hr. destruct (Hall r Hr) as [[]|Hk]. exact Hk.
Qed.

(** The spec's example, read off the theorem: the table with the rows
    [(1,"a"), (1,"a"), (2,"b")] is left with the rows [(1,"a"), (2,"b")]. *)
Lemma drop_duplicates_keeps_first_occurrences_witness :
  exec
    (remove_duplicates
       {| missing_choice := None; method_choice := Mean;
          apply_cleaning_clicked := false;
          remove_duplicates_clicked := true;
          plot_choice := Histogram; column_choice := None;
          x_choice := None; y_choice := None |})
    [(LStr "k", Int64Series [1; 1; 2]%Z);
     (LStr "v", ObjectSeries [Some "a"; Some "a"; Some "b"]%string)]
  = [(LStr "k", Int64Series [1; 2]%Z);
     (LStr "v", ObjectSeries [Some "a"; Some "b"]%string)].
Proof.
  exact (proj1
           (drop_duplicates_keeps_first_occurrences
              {| missing_choice := None; method_choice := Mean;
                 apply_cleaning_clicked := false;
                 remove_duplicates_clicked := true;
                 plot_choice := Histogram; column_choice := None;
                 x_choice := None; y_choice := None |}
              [(LStr "k", Int64Series [1; 1; 2]%Z);
               (LStr "v", ObjectSeries [Some "a"; Some "a"; Some "b"]%string)]
              eq_refl eq_refl)).
Defined.

(** The spec's example: rows [(1,"a"), (1,"a"), (2,"b")] become
    [(1,"a"), (2,"b")]. *)
Example drop_duplicates_example :
  drop_duplicates
    [(LStr "k", Int64Series [1; 1; 2]%Z);
     (LStr "v", ObjectSeries [Some "a"; Some "a"; Some "b"]%string)]
  = [(LStr "k", Int64Series [1; 2]%Z);
     (LStr "v", ObjectSeries [Some "a"; Some "b"]%string)].
Proof. reflexivity. Qed.



(** ** Invariants of cleaning *)

Lemma same_frame_refl (df : DataFrame) : same_frame df df.
Proof. unfold same_frame. auto. Qed.

Lemma same_frame_df_mask (m : list bool) (df : DataFrame) :
  same_frame df (df_mask m df).
Proof.
  unfold same_frame.
  auto using columns_df_mask, dtypes_df_mask, nrows_df_mask_le.
Qed.

Lemma same_frame_fill (col : label) (s : Series) (v : scalar) (df : DataFrame) :
  getitem col df = inr s ->
  same_frame df (setitem col (Series_fillna v s) df).
Proof.
  intros E. unfold same_frame. split; [apply columns_setitem|]. split.
  - apply (dtypes_setitem col s); [exact E | apply Series_fillna_dtype].
  - rewrite (nrows_setitem col s); [lia | exact E | apply Series_fillna_len].
Qed.

Lemma same_frame_apply_cleaning (fill_method : method) (col : label) (df : DataFrame) :
  same_frame df (exec (apply_cleaning fill_method col) df).
Proof.
  unfold exec. destruct (getitem col df) as [e|s] eqn:E.
  - rewrite (apply_cleaning_absent fill_method col df e E).
    apply same_frame_refl.
  - destruct (method_eq_dec fill_method DropRows) as [->|Hm].
    + rewrite (apply_cleaning_DropRows col df s E).
      apply same_frame_df_mask.
    + rewrite (apply_cleaning_fill fill_method col df s Hm E).
      destruct (fill_value fill_method s);
        [apply same_frame_refl | apply same_frame_fill; exact E].
Qed.

(** C10.  Each cleaning step (a fill by Mean, Median or Mode, Drop Rows,
    Remove Duplicate Rows), run on its own or through its page section,
    leaves the column labels in their order and the dtypes as they were and
    does not add a row. *)
Theorem cleaning_preserves_columns
    (w : widgets) (fill_method : method) (col : label) (df : DataFrame) :
  same_frame df (exec (apply_cleaning fill_method col) df)
  /\ same_frame df (exec drop_duplicates_inplace df)
  /\ same_frame df (exec (handle_missing_values w) df)
  /\ same_frame df (exec (remove_duplicates w) df).
Proof.
  split; [apply same_frame_apply_cleaning|].
  split; [apply same_frame_df_mask|]. split.
  - unfold exec, handle_missing_values, bind, get, when, emit.
    destruct (Nat.ltb 0 (isnull_sum_sum df)); [|apply same_frame_refl].
    destruct (apply_cleaning_clicked w); [|apply same_frame_refl].
    pose proof (same_frame_apply_cleaning (method_choice w)
                  (selectbox (columns_with_null df) 0 (missing_choice w)) df)
      as Hs.
    unfold exec in Hs.
    destruct (apply_cleaning _ _ df) as [[df1 out1] [e|[]]]; exact Hs.
  - unfold exec, remove_duplicates, bind, get, when, emit,
      drop_duplicates_inplace, put.
    destruct (Nat.ltb 0 (count_true (duplicated df)));
      [|apply same_frame_refl].
    destruct (remove_duplicates_clicked w); [|apply same_frame_refl].
    apply same_frame_df_mask.
Qed.

(** ** Errors of the cleaner *)

Lemma getitem_absent (col : label) (df : DataFrame) :
  ~ In col (columns df) -> getitem col df = inl (KeyError col).
Proof.
  intros Hn. destruct (getitem col df) as [e|s] eqn:E.
  - rewrite (getitem_KeyError col df e E). reflexivity.
  - exfalso. apply Hn. apply getitem_In in E.
    apply (in_map fst) in E. exact E.
Qed.

(** C7.  A cleaning request for a column that is not in the table raises
    (pandas' [KeyError] for that label), shows nothing and leaves the table
    as it was; whatever the request, a run of the handler that raises
    leaves the table as it was; and no method lacks a behaviour for a
    dtype: on a column of the table with a present value the handler
    succeeds for every method. *)
Theorem invalid_cleaning_request_leaves_table
    (fill_method : method) (col : label) (df : DataFrame) :
  (~ In col (columns df) ->
   apply_cleaning fill_method col df = (df, [], inl (KeyError col)))
  /\ (forall df' out e,
        apply_cleaning fill_method col df = (df', out, inl e) ->
        df' = df /\ out = [])
  /\ (forall s, getitem col df = inr s -> 0 < Series_count s ->
        exists df',
          apply_cleaning fill_method col df
          = (df', [success_cleaned col fill_method], inr tt)).
Proof.
  split; [|split].
  - intros Hn. apply (apply_cleaning_absent _ _ _ (KeyError col)).
    apply getitem_absent. exact Hn.
  - intros df' out e. destruct (getitem col df) as [e0|s] eqn:E.
    + rewrite (apply_cleaning_absent fill_method col df e0 E).
      intros [= <- <- _]. auto.
    + destruct (method_eq_dec fill_method DropRows) as [->|Hm].
      * rewrite (apply_cleaning_DropRows col df s E). discriminate.
      * rewrite (apply_cleaning_fill fill_method col df s Hm E).
        destruct (fill_value fill_method s); [|discriminate].
        intros [= <- <- _]. auto.
  - intros s E Hc. destruct (method_eq_dec fill_method DropRows) as [->|Hm].
    + rewrite (apply_cleaning_DropRows col df s E). eauto.
    + rewrite (apply_cleaning_fill fill_method col df s Hm E).
      destruct (Series_mode0_present s Hc) as (v & Ev & _).
      unfold fill_value.
      destruct (dtype_in (Series_dtype s) [int64; float64]) eqn:Hd;
        [|rewrite Ev; eauto].
      destruct s; try discriminate Hd;
        destruct fill_method; try congruence;
        cbn [Series_mean Series_median]; rewrite ?Ev; eauto.
Qed.

Lemma invalid_cleaning_request_leaves_table_witness :
  apply_cleaning Median (LStr "height")
    [(LStr "age", Float64Series [20; PrimFloat.nan]%float)]
  = ([(LStr "age", Float64Series [20; PrimFloat.nan]%float)], [],
     inl (KeyError (LStr "height"))).
Proof.
  apply (proj1 (invalid_cleaning_request_leaves_table Median (LStr "height")
                  [(LStr "age", Float64Series [20; PrimFloat.nan]%float)])).
  cbn. intros [E|[]]. discriminate E.
Defined.

(** ** The loader and the overview *)

Section Loader.
Variable read_csv : UploadedFile -> exn + DataFrame.
Variable read_excel : UploadedFile -> exn + DataFrame.
Variable describe : DataFrame -> exn + list (label * list scalar).

Lemma load_data_csv (file : UploadedFile) :
  endswith (name file) ".csv" = true ->
  load_data read_csv read_excel file
  = match read_csv file with
    | inr df => ([], Some df)
    | inl e => ([error_reading_file e], None)
    end.
Proof. intros E. unfold load_data. rewrite E. reflexivity. Qed.

Lemma load_data_excel (file : UploadedFile) :
  endswith (name file) ".csv" = false ->
  endswith (name file) ".xls" || endswith (name file) ".xlsx" = true ->
  load_data read_csv read_excel file
  = match read_excel file with
    | inr df => ([], Some df)
    | inl e => ([error_reading_file e], None)
    end.
Proof. intros E1 E2. unfold load_data. rewrite E1, E2. reflexivity. Qed.

(** Any other suffix: no table, and nothing on the page. *)
Lemma load_data_other_suffix (file : UploadedFile) :
  endswith (name file) ".csv" = false ->
  endswith (name file) ".xls" = false ->
  endswith (name file) ".xlsx" = false ->
  load_data read_csv read_excel file = ([], None).
Proof. intros E1 E2 E3. unfold load_data. rewrite E1, E2, E3. reflexivity. Qed.

(** C5 (the defect).  A file named [DATA.CSV] passes the uploader, whose
    extension filter ignores case, but matches none of the suffixes that
    [load_data] tests: the function falls off its [try] block and returns
    [None] without the [st.error] message that the parse failures get, so
    the failure carries no reason and the page stays empty. *)
Theorem load_data_other_suffix_is_silent (content : list Byte.byte) :
  load_data read_csv read_excel {| name := "DATA.CSV"; content := content |}
  = ([], None)
  /\ run read_csv read_excel describe
       (Some {| name := "DATA.CSV"; content := content |})
       {| missing_choice := None; method_choice := Mean;
          apply_cleaning_clicked := false;
          remove_duplicates_clicked := false;
          plot_choice := Histogram; column_choice := None;
          x_choice := None; y_choice := None |}
     = ([], None).
Proof. split; reflexivity. Qed.

(** C8.  The overview (preview, shape, per-column non-null counts and
    dtypes, statistics) is computed from the table alone and leaves it as it
    was: shown twice in a row it is twice the same. *)
Theorem overview_is_repeatable (df : DataFrame) :
  let '(df1, out1, r1) := data_overview describe df in
  let '(df2, out2, r2) := data_overview describe df1 in
  df1 = df /\ df2 = df /\ out2 = out1 /\ r2 = r1
  /\ out1 = [show_head (head df); show_shape (shape df); show_info (info df)]
            ++ match describe df with
               | inr d => [show_describe d]
               | inl _ => []
               end.
Proof.
  unfold data_overview, bind, get, emit, lift.
  destruct (describe df) as [e|d] eqn:E; cbn; rewrite ?E; cbn; auto.
Qed.

End Loader.

(** ** The visualizer *)

Lemma selectbox_In (options : list label) (index : nat) (choice : option nat) :
  selectbox options index choice = LNone
  \/ In (selectbox options index choice) options.
Proof.
  unfold selectbox.
  destruct choice as [i|]; [destruct (Nat.ltb i (List.length options))|];
    match goal with
    | |- nth ?k _ _ = _ \/ _ =>
        destruct (nth_in_or_default k options LNone); auto
    end.
Qed.

Lemma selectbox_empty (index : nat) (choice : option nat) :
  selectbox [] index choice = LNone.
Proof.
  unfold selectbox. destruct choice as [i|]; cbn; destruct index; reflexivity.
Qed.

Lemma select_dtypes_columns (include : list dtype) (df : DataFrame) (c : label) :
  In c (columns (select_dtypes include df)) -> In c (columns df).
Proof.
  unfold columns, select_dtypes. rewrite !in_map_iff.
  intros (x & E & Hx). apply filter_In in Hx. exists x. tauto.
Qed.

(** A table with no numeric column and one text column: the histogram
    request draws nothing and raises nothing. *)
Lemma histogram_without_numeric_column_is_no_error :
  let df := [(LStr "city", ObjectSeries [Some "a"; Some "b"]%string)] in
  let w := {| missing_choice := None; method_choice := Mean;
              apply_cleaning_clicked := false;
              remove_duplicates_clicked := false;
              plot_choice := Histogram; column_choice := None;
              x_choice := None; y_choice := None |} in
  eligible Histogram df = []
  /\ visualization w df = (df, [], inr tt).
Proof. cbv zeta. split; reflexivity. Qed.

(** C6 (as amended).  When the table has no column of the kind the plot
    needs, the select box is empty, the guard [if selected_col:] skips the
    plot, and the section ends normally with nothing drawn, for each of the
    four kinds; in particular Histogram, Scatter Plot and Box Plot draw
    nothing on a table without numeric column.  Bar Chart draws the count
    plot of the selected text column whenever the selected label is truthy
    (which needs a text column to select). *)
Theorem visualization_eligibility (w : widgets) (df : DataFrame) :
  (eligible (plot_choice w) df = [] -> visualization w df = (df, [], inr tt))
  /\ (plot_choice w = BarChart ->
      let selected_col :=
        selectbox (eligible BarChart df) 0 (column_choice w) in
      truthy selected_col = true ->
      eligible BarChart df <> []
      /\ exists s,
           getitem selected_col df = inr s
           /\ visualization w df = (df, [pyplot (countplot s)], inr tt)).
Proof.
  split.
  - unfold eligible, visualization, bind, get, when.
    destruct (plot_choice w); intros ->; rewrite !selectbox_empty;
      reflexivity.
  - intros Hp. cbv zeta. unfold eligible. intros Ht.
    destruct (selectbox_In (columns (select_dtypes [object; category] df)) 0
                (column_choice w)) as [E|Hin].
    + rewrite E in Ht. discriminate.
    + split; [intros E; rewrite E in Hin; destruct Hin|].
      destruct (In_getitem _ df (select_dtypes_columns _ _ _ Hin)) as (s & Es).
      exists s. split; [exact Es|].
      unfold visualization, bind, get. rewrite Hp. cbv zeta beta iota.
      rewrite Ht. unfold when, col_, bind, get, lift, emit. rewrite Es.
      reflexivity.
Qed.

Lemma visualization_eligibility_witness :
  visualization
    {| missing_choice := None; method_choice := Mean;
       apply_cleaning_clicked := false; remove_duplicates_clicked := false;
       plot_choice := BoxPlot; column_choice := None;
       x_choice := None; y_choice := None |}
    [(LStr "city", ObjectSeries [Some "a"; Some "b"]%string)]
  = ([(LStr "city", ObjectSeries [Some "a"; Some "b"]%string)], [], inr tt).
Proof.
  apply (proj1 (visualization_eligibility
                  {| missing_choice := None; method_choice := Mean;
                     apply_cleaning_clicked := false;
                     remove_duplicates_clicked := false;
                     plot_choice := BoxPlot; column_choice := None;
                     x_choice := None; y_choice := None |}
                  [(LStr "city", ObjectSeries [Some "a"; Some "b"]%string)])).
  reflexivity.
Defined.

(** Bar Chart on the same table draws the count plot of the text column. *)
Example bar_chart_example :
  visualization
    {| missing_choice := None; method_choice := Mean;
       apply_cleaning_clicked := false; remove_duplicates_clicked := false;
       plot_choice := BarChart; column_choice := None;
       x_choice := None; y_choice := None |}
    [(LStr "city", ObjectSeries [Some "a"; Some "b"]%string)]
  = ([(LStr "city", ObjectSeries [Some "a"; Some "b"]%string)],
     [pyplot (countplot (ObjectSeries [Some "a"; Some "b"]%string))], inr tt).
Proof. reflexivity. Qed.

(** ** Further properties of the cleaner *)

Lemma setitem_same (col : label) (s : Series) (df : DataFrame) :
  getitem col df = inr s -> setitem col s df = df.
Proof.
  induction df as [|[l s0] df IH]; cbn; [reflexivity|].
  destruct (label_eqb l col); [intros [= ->]; reflexivity|].
  intros E. rewrite (IH E). reflexivity.
Qed.

Lemma count_true_any_na {A : Type} `{Elt A} (xs : list A) :
  count_true (map isna xs) = 0 -> any_na xs = false.
Proof.
  unfold count_true, any_na.
  induction xs as [|x xs IH]; cbn [map filter existsb]; [reflexivity|].
  destruct (isna x); cbn; [discriminate | exact IH].
Qed.

Lemma Series_fillna_complete (v : scalar) (s : Series) :
  count_true (Series_isnull s) = 0 -> Series_fillna v s = s.
Proof.
  destruct s as [xs|xs|xs|xs], v; cbn [Series_isnull Series_fillna];
    intros Hc; try reflexivity; f_equal;
    apply fillna_no_na, count_true_any_na; exact Hc.
Qed.

Lemma Series_mask_len (m : list bool) (s : Series) (n : nat) :
  Series_len s = n ->
  Series_len (Series_mask m s) = List.length (mask m (repeat tt n)).
Proof.
  intros <-. rewrite Series_len_cells, Series_mask_cells, Series_len_cells.
  generalize (Series_cells s). intros xs. revert xs.
  induction m as [|b m IH]; intros [|x xs]; cbn; try reflexivity.
  destruct b; cbn; rewrite IH; reflexivity.
Qed.

Lemma aligned_df_mask (m : list bool) (df : DataFrame) :
  aligned df = true -> aligned (df_mask m df) = true.
Proof.
  intros Ha. unfold aligned. apply forallb_forall. intros c Hc.
  apply Nat.eqb_eq. unfold df_mask in Hc. apply in_map_iff in Hc.
  destruct Hc as ([l s] & <- & Hin). cbn [snd].
  rewrite (Series_mask_len m s (nrows df)) by apply (aligned_len df _ Ha Hin).
  destruct df as [|[l0 s0] df]; [destruct Hin|]. cbn [df_mask map nrows fst snd].
  symmetry. apply Series_mask_len.
  apply (aligned_len _ (l0, s0) Ha). left. reflexivity.
Qed.

Lemma setitem_In (col : label) (s s' : Series) (df : DataFrame) (c : label * Series) :
  getitem col df = inr s ->
  In c (setitem col s' df) -> c = (col, s') \/ In c df.
Proof.
  induction df as [|[l s0] df IH]; cbn; [tauto|].
  destruct (label_eqb l col) eqn:E.
  - apply label_eqb_eq in E. subst l. intros _ [<-|Hin]; auto.
  - intros Eg [<-|Hin]; [auto|]. destruct (IH Eg Hin); auto.
Qed.

Lemma aligned_setitem (col : label) (s s' : Series) (df : DataFrame) :
  aligned df = true -> getitem col df = inr s ->
  Series_len s' = Series_len s ->
  aligned (setitem col s' df) = true.
Proof.
  intros Ha E Hl. unfold aligned. apply forallb_forall. intros c Hc.
  apply Nat.eqb_eq. rewrite (nrows_setitem col s s' df E Hl).
  destruct (setitem_In col s s' df c E Hc) as [->|Hin].
  - cbn [snd]. rewrite Hl.
    apply (aligned_len df (col, s) Ha). apply getitem_In. exact E.
  - apply aligned_len; assumption.
Qed.

Lemma isnull_sum_sum_setitem (col : label) (s s' : Series) (df : DataFrame) :
  getitem col df = inr s ->
  isnull_sum_sum (setitem col s' df) + count_true (Series_isnull s)
  = isnull_sum_sum df + count_true (Series_isnull s').
Proof.
  unfold isnull_sum_sum, isnull_sum.
  induction df as [|[l s0] df IH]; cbn [getitem setitem]; [discriminate|].
  destruct (label_eqb l col).
  - intros [= ->]. cbn. lia.
  - intros E. specialize (IH E). cbn in *. lia.
Qed.

(** X1.  A fill by Mean, Median or Mode, on a column of any dtype, that
    computes a value which is not [NaN]: every missing cell of the column
    takes the value, every present cell is kept, the column is left without
    missing cell, and the other columns and the number of rows are as they
    were. *)
Theorem fill_leaves_no_missing_cell
    (fill_method : method) (df : DataFrame) (col : label) (s : Series)
    (v : scalar) :
  getitem col df = inr s ->
  fill_method <> DropRows ->
  fill_value fill_method s = inr v ->
  isna v = false ->
  let df' := exec (apply_cleaning fill_method col) df in
  apply_cleaning fill_method col df
  = (df', [success_cleaned col fill_method], inr tt)
  /\ (exists s',
        getitem col df' = inr s'
        /\ Series_cells s'
           = map (fun c => if isna c then v else c) (Series_cells s)
        /\ count_true (Series_isnull s') = 0)
  /\ (forall c, c <> col -> getitem c df' = getitem c df)
  /\ nrows df' = nrows df.
Proof.
  intros E Hm Hf Hv. cbv zeta. unfold exec.
  rewrite (apply_cleaning_fill fill_method col df s Hm E), Hf. cbn [fst].
  assert (Hcells : Series_cells (Series_fillna v s)
                   = fillna v (Series_cells s)).
  { apply Series_fillna_cells. apply (fill_value_fits fill_method); assumption. }
  split; [reflexivity|]. split; [|split].
  - exists (Series_fillna v s).
    split; [apply (getitem_setitem_same col s); exact E|].
    split; [exact Hcells|].
    rewrite Series_isnull_cells, Hcells.
    apply count_true_no_na, any_na_fillna. exact Hv.
  - intros c Hc. apply getitem_setitem_other. exact Hc.
  - apply (nrows_setitem col s); [exact E | apply Series_fillna_len].
Qed.

Lemma fill_leaves_no_missing_cell_witness :
  apply_cleaning Median (LStr "age")
    [(LStr "age", Float64Series [10; PrimFloat.nan; 40; 20]%float)]
  = ([(LStr "age", Float64Series [10; 20; 40; 20]%float)],
     [success_cleaned (LStr "age") Median], inr tt).
Proof.
  apply (fill_leaves_no_missing_cell Median
           [(LStr "age", Float64Series [10; PrimFloat.nan; 40; 20]%float)]
           (LStr "age")
           (Float64Series [10; PrimFloat.nan; 40; 20]%float)
           (PyFloat 20%float)).
  - reflexivity.
  - discriminate.
  - reflexivity.
  - reflexivity.
Defined.

(** X2.  Cleaning a column that has no missing cell changes nothing in the
    table, whatever the method: a fill has no cell to fill and Drop Rows has
    no row to drop. *)
Theorem cleaning_complete_column_is_noop
    (fill_method : method) (df : DataFrame) (col : label) (s : Series) :
  aligned df = true ->
  getitem col df = inr s ->
  count_true (Series_isnull s) = 0 ->
  exec (apply_cleaning fill_method col) df = df.
Proof.
  intros Ha E Hc. unfold exec.
  destruct (method_eq_dec fill_method DropRows) as [->|Hm].
  - rewrite (apply_cleaning_DropRows col df s E). cbn [fst].
    apply df_mask_all_true.
    + exact Ha.
    + rewrite length_map, Series_isnull_cells, length_map,
        <- Series_len_cells.
      apply (aligned_len df (col, s) Ha). apply getitem_In. exact E.
    + apply count_true_zero. exact Hc.
  - rewrite (apply_cleaning_fill fill_method col df s Hm E).
    destruct (fill_value fill_method s) as [e|v]; [reflexivity|]. cbn [fst].
    rewrite (Series_fillna_complete v s Hc). apply setitem_same. exact E.
Qed.

Lemma cleaning_complete_column_is_noop_witness :
  exec (apply_cleaning Mean (LStr "n"))
    [(LStr "n", Int64Series [1; 2; 3]%Z);
     (LStr "c", ObjectSeries [Some "a"; None; Some "b"]%string)]
  = [(LStr "n", Int64Series [1; 2; 3]%Z);
     (LStr "c", ObjectSeries [Some "a"; None; Some "b"]%string)].
Proof.
  apply (cleaning_complete_column_is_noop Mean
           [(LStr "n", Int64Series [1; 2; 3]%Z);
            (LStr "c", ObjectSeries [Some "a"; None; Some "b"]%string)]
           (LStr "n") (Int64Series [1; 2; 3]%Z));
    reflexivity.
Defined.

(** X3.  A fill that computes a value which is not [NaN] lowers the number
    of missing cells of the table by the number of missing cells the column
    had. *)
Theorem fill_lowers_missing_total
    (fill_method : method) (df : DataFrame) (col : label) (s : Series)
    (v : scalar) :
  getitem col df = inr s ->
  fill_method <> DropRows ->
  fill_value fill_method s = inr v ->
  isna v = false ->
  isnull_sum_sum (exec (apply_cleaning fill_method col) df)
  + count_true (Series_isnull s)
  = isnull_sum_sum df.
Proof.
  intros E Hm Hf Hv. unfold exec.
  rewrite (apply_cleaning_fill fill_method col df s Hm E), Hf. cbn [fst].
  rewrite (isnull_sum_sum_setitem col s _ df E).
  assert (H0 : count_true (Series_isnull (Series_fillna v s)) = 0).
  { rewrite Series_isnull_cells, Series_fillna_cells
      by (apply (fill_value_fits fill_method); assumption).
    apply count_true_no_na, any_na_fillna. exact Hv. }
  rewrite H0. lia.
Qed.

Lemma fill_lowers_missing_total_witness :
  isnull_sum_sum
    (exec (apply_cleaning Mode (LStr "c"))
       [(LStr "c", ObjectSeries [Some "a"; None; None]%string);
        (LStr "x", Float64Series [1; PrimFloat.nan; 3]%float)])
  + count_true (Series_isnull (ObjectSeries [Some "a"; None; None]%string))
  = isnull_sum_sum
      [(LStr "c", ObjectSeries [Some "a"; None; None]%string);
       (LStr "x", Float64Series [1; PrimFloat.nan; 3]%float)].
Proof.
  apply (fill_lowers_missing_total Mode
           [(LStr "c", ObjectSeries [Some "a"; None; None]%string);
            (LStr "x", Float64Series [1; PrimFloat.nan; 3]%float)]
           (LStr "c") (ObjectSeries [Some "a"; None; None]%string)
           (PyStr "a")).
  - reflexivity.
  - discriminate.
  - reflexivity.
  - reflexivity.
Defined.

(** X4.  Every cleaning step keeps the columns of the table at one common
    length. *)
Theorem cleaning_keeps_columns_aligned
    (w : widgets) (fill_method : method) (col : label) (df : DataFrame) :
  aligned df = true ->
  aligned (exec (apply_cleaning fill_method col) df) = true
  /\ aligned (exec (handle_missing_values w) df) = true
  /\ aligned (exec (remove_duplicates w) df) = true.
Proof.
  intros Ha.
  assert (Hclean : forall m c, aligned (exec (apply_cleaning m c) df) = true).
  { intros m c. unfold exec. destruct (getitem c df) as [e|s] eqn:E.
    - rewrite (apply_cleaning_absent m c df e E). exact Ha.
    - destruct (method_eq_dec m DropRows) as [->|Hm].
      + rewrite (apply_cleaning_DropRows c df s E).
        apply aligned_df_mask. exact Ha.
      + rewrite (apply_cleaning_fill m c df s Hm E).
        destruct (fill_value m s); [exact Ha|].
        apply (aligned_setitem c s); auto using Series_fillna_len. }
  split; [apply Hclean|]. split.
  - unfold exec, handle_missing_values, bind, get, when, emit.
    destruct (Nat.ltb 0 (isnull_sum_sum df)); [|exact Ha].
    destruct (apply_cleaning_clicked w); [|exact Ha].
    pose proof (Hclean (method_choice w)
                  (selectbox (columns_with_null df) 0 (missing_choice w)))
      as Hs.
    unfold exec in Hs.
    destruct (apply_cleaning _ _ df) as [[df1 out1] [e|[]]]; exact Hs.
  - unfold exec, remove_duplicates, bind, get, when, emit,
      drop_duplicates_inplace, put.
    destruct (Nat.ltb 0 (count_true (duplicated df))); [|exact Ha].
    destruct (remove_duplicates_clicked w); [|exact Ha].
    apply aligned_df_mask. exact Ha.
Qed.

Lemma cleaning_keeps_columns_aligned_witness :
  aligned
    (exec (apply_cleaning DropRows (LStr "c"))
       [(LStr "c", ObjectSeries [Some "a"; None; None]%string);
        (LStr "x", Float64Series [1; PrimFloat.nan; 3]%float)])
  = true.
Proof.
  apply (cleaning_keeps_columns_aligned
           {| missing_choice := None; method_choice := Mean;
              apply_cleaning_clicked := false;
              remove_duplicates_clicked := false;
              plot_choice := Histogram; column_choice := None;
              x_choice := None; y_choice := None |}
           DropRows (LStr "c")
           [(LStr "c", ObjectSeries [Some "a"; None; None]%string);
            (LStr "x", Float64Series [1; PrimFloat.nan; 3]%float)]).
  reflexivity.
Defined.

(** ** Further properties of duplicate removal *)

Lemma duplicated_from_NoDup (seen rs : list (list key)) :
  NoDup rs -> (forall r, In r rs -> ~ In r seen) ->
  count_true (duplicated_from seen rs) = 0.
Proof.
  unfold count_true. revert seen.
  induction rs as [|r rs IH]; intros seen Hnd Hdis; [reflexivity|].
  cbn [duplicated_from].
  destruct (existsb (row_eqb r) seen) eqn:Ex.
  - apply existsb_row_eqb in Ex. exfalso.
    apply (Hdis r); [left; reflexivity | exact Ex].
  - cbn [filter]. inversion Hnd as [|? ? Hr Hnd']; subst. apply IH.
    + exact Hnd'.
    + intros x Hx [<-|Hin]; [contradiction|].
      apply (Hdis x); [right; exact Hx | exact Hin].
Qed.

Lemma count_true_negb (m : list bool) :
  count_true (map negb m) + count_true m = List.length m.
Proof.
  unfold count_true. induction m as [|b m IH]; [reflexivity|].
  destruct b; cbn in *; lia.
Qed.

Lemma duplicated_drop_duplicates (df : DataFrame) :
  aligned df = true -> count_true (duplicated (drop_duplicates df)) = 0.
Proof.
  intros Ha. unfold duplicated at 1.
  assert (Hrows : rows (drop_duplicates df)
                  = mask (map negb (duplicated df)) (rows df)).
  { apply rows_df_mask; [exact Ha|].
    rewrite length_map. apply duplicated_length. }
  rewrite Hrows. destruct (kept_rows [] (rows df)) as (Hnd & _ & _).
  apply duplicated_from_NoDup; [exact Hnd | intros r _ []].
Qed.

(** X5.  After the duplicate rows are removed none is left: no row of the
    resulting table is flagged, the section run on it reports that there is
    no duplicate, whatever the widgets, and removing duplicates once more
    changes nothing. *)
Theorem no_duplicates_after_removal (w : widgets) (df : DataFrame) :
  aligned df = true ->
  count_true (duplicated (drop_duplicates df)) = 0
  /\ remove_duplicates w (drop_duplicates df)
     = (drop_duplicates df, [info_no_duplicates], inr tt)
  /\ drop_duplicates (drop_duplicates df) = drop_duplicates df.
Proof.
  intros Ha. pose proof (duplicated_drop_duplicates df Ha) as H0.
  split; [exact H0|]. split.
  - unfold remove_duplicates, bind, get, emit. rewrite H0. reflexivity.
  - unfold drop_duplicates at 1. apply df_mask_all_true.
    + apply aligned_df_mask. exact Ha.
    + rewrite length_map. apply duplicated_length.
    + apply count_true_zero. exact H0.
Qed.

Lemma no_duplicates_after_removal_witness :
  drop_duplicates
    (drop_duplicates
       [(LStr "k", Float64Series [1; PrimFloat.nan; 1; PrimFloat.nan]%float);
        (LStr "v", ObjectSeries [Some "a"; None; Some "a"; None]%string)])
  = drop_duplicates
      [(LStr "k", Float64Series [1; PrimFloat.nan; 1; PrimFloat.nan]%float);
       (LStr "v", ObjectSeries [Some "a"; None; Some "a"; None]%string)].
Proof.
  apply (no_duplicates_after_removal
           {| missing_choice := None; method_choice := Mean;
              apply_cleaning_clicked := false;
              remove_duplicates_clicked := true;
              plot_choice := Histogram; column_choice := None;
              x_choice := None; y_choice := None |}
           [(LStr "k", Float64Series [1; PrimFloat.nan; 1; PrimFloat.nan]%float);
            (LStr "v", ObjectSeries [Some "a"; None; Some "a"; None]%string)]).
  reflexivity.
Defined.

(** X6.  The number of duplicate rows that the section announces is the
    number of rows that the button removes. *)
Theorem found_duplicates_is_number_removed (w : widgets) (df : DataFrame) :
  aligned df = true ->
  remove_duplicates_clicked w = true ->
  0 < count_true (duplicated df) ->
  let n := count_true (duplicated df) in
  let df' := exec (remove_duplicates w) df in
  remove_duplicates w df
  = (df', [found_duplicates n; success_duplicates_removed], inr tt)
  /\ nrows df' + n = nrows df.
Proof.
  intros Ha Hc Hn. cbv zeta. unfold exec.
  assert (Hrun : remove_duplicates w df
                 = (drop_duplicates df,
                    [found_duplicates (count_true (duplicated df));
                     success_duplicates_removed], inr tt)).
  { unfold remove_duplicates, bind, get, when, emit,
      drop_duplicates_inplace, put. rewrite Hc.
    apply Nat.ltb_lt in Hn. rewrite Hn. reflexivity. }
  rewrite Hrun. cbn [fst]. split; [reflexivity|].
  unfold drop_duplicates. rewrite nrows_df_mask.
  - rewrite count_true_negb. apply duplicated_length.
  - intros ->. cbn in Hn. lia.
  - rewrite length_map. apply duplicated_length.
Qed.

Lemma found_duplicates_is_number_removed_witness :
  remove_duplicates
    {| missing_choice := None; method_choice := Mean;
       apply_cleaning_clicked := false; remove_duplicates_clicked := true;
       plot_choice := Histogram; column_choice := None;
       x_choice := None; y_choice := None |}
    [(LStr "k", Int64Series [1; 1; 2; 1]%Z)]
  = ([(LStr "k", Int64Series [1; 2]%Z)],
     [found_duplicates 2; success_duplicates_removed], inr tt).
Proof.
  apply (found_duplicates_is_number_removed
           {| missing_choice := None; method_choice := Mean;
              apply_cleaning_clicked := false;
              remove_duplicates_clicked := true;
              plot_choice := Histogram; column_choice := None;
              x_choice := None; y_choice := None |}
           [(LStr "k", Int64Series [1; 1; 2; 1]%Z)]).
  - reflexivity.
  - reflexivity.
  - vm_compute. lia.
Defined.

(** ** Further properties of the missing-values section *)

Lemma count_true_pos (m : list bool) :
  Nat.ltb 0 (count_true m) = existsb (fun b => b) m.
Proof.
  unfold count_true. induction m as [|b m IH]; [reflexivity|].
  destruct b; cbn [filter existsb orb]; [reflexivity | exact IH].
Qed.

Lemma isnull_sum_sum_pos (df : DataFrame) :
  0 < isnull_sum_sum df -> columns_with_null df <> [].
Proof.
  unfold isnull_sum_sum, isnull_sum, columns_with_null.
  induction df as [|[l s] df IH]; cbn [map fold_right filter snd fst];
    [lia|].
  intros Hpos. rewrite <- count_true_pos.
  destruct (Nat.ltb 0 (count_true (Series_isnull s))) eqn:E;
    [cbn; discriminate|].
  apply Nat.ltb_ge in E. apply IH. lia.
Qed.

Lemma selectbox_nonempty (options : list label) (choice : option nat) :
  options <> [] -> In (selectbox options 0 choice) options.
Proof.
  intros Hne. unfold selectbox.
  assert (H0 : In (nth 0 options LNone) options).
  { destruct options; [congruence | left; reflexivity]. }
  destruct choice as [i|]; [|exact H0].
  destruct (Nat.ltb i (List.length options)) eqn:E; [|exact H0].
  apply nth_In. apply Nat.ltb_lt. exact E.
Qed.

Lemma columns_with_null_In (df : DataFrame) (c : label) :
  In c (columns_with_null df) ->
  exists s, In (c, s) df /\ 0 < count_true (Series_isnull s).
Proof.
  unfold columns_with_null. rewrite in_map_iff.
  intros ([l s] & <- & Hin). apply filter_In in Hin.
  destruct Hin as [Hin Hex]. exists s. split; [exact Hin|].
  cbn [snd] in Hex. rewrite <- count_true_pos in Hex.
  apply Nat.ltb_lt. exact Hex.
Qed.

Lemma getitem_NoDup (df : DataFrame) (c : label) (s : Series) :
  NoDup (columns df) -> In (c, s) df -> getitem c df = inr s.
Proof.
  induction df as [|[l s0] df IH]; cbn; [tauto|].
  intros Hnd [[= -> ->]|Hin].
  - rewrite label_eqb_refl. reflexivity.
  - inversion Hnd as [|? ? Hl Hnd']; subst.
    destruct (label_eqb l c) eqn:E; [|auto].
    apply label_eqb_eq in E. subst l. exfalso. apply Hl.
    apply (in_map fst) in Hin. exact Hin.
Qed.

Lemma fill_value_error (fill_method : method) (s : Series) (e : exn) :
  fill_method <> DropRows ->
  fill_value fill_method s = inl e ->
  e = KeyError (LInt 0) /\ Series_count s = 0
  /\ (fill_method = Mode
      \/ dtype_in (Series_dtype s) [int64; float64] = false).
Proof.
  assert (Hmode : Series_mode0 s = inl e ->
                  e = KeyError (LInt 0) /\ Series_count s = 0).
  { intros E. destruct (Nat.eq_dec (Series_count s) 0) as [Hc|Hc].
    - rewrite (Series_mode0_absent s Hc) in E. injection E as <-. auto.
    - destruct (Series_mode0_present s) as (v & Ev & _); [lia|].
      congruence. }
  intros Hm. unfold fill_value.
  destruct (dtype_in (Series_dtype s) [int64; float64]) eqn:Hd.
  - destruct fill_method; try congruence;
      try (destruct s; try discriminate Hd; cbn; discriminate).
    intros E. destruct (Hmode E). auto.
  - intros E. destruct (Hmode E). auto.
Qed.

(** X7.  In a table with unique column labels and a missing cell, the column
    that the section hands to the cleaning handler is a column of the table
    that has a missing cell, whatever the state of the select box. *)
Theorem section_cleans_a_column_with_missing_cell
    (w : widgets) (df : DataFrame) :
  NoDup (columns df) ->
  0 < isnull_sum_sum df ->
  let selected_col_missing :=
    selectbox (columns_with_null df) 0 (missing_choice w) in
  In selected_col_missing (columns_with_null df)
  /\ exists s, getitem selected_col_missing df = inr s
               /\ 0 < count_true (Series_isnull s).
Proof.
  intros Hnd Hpos. cbv zeta.
  pose proof (selectbox_nonempty _ (missing_choice w)
                (isnull_sum_sum_pos df Hpos)) as Hin.
  split; [exact Hin|].
  destruct (columns_with_null_In df _ Hin) as (s & Hs & Hc).
  exists s. split; [apply getitem_NoDup; assumption | exact Hc].
Qed.

Lemma section_cleans_a_column_with_missing_cell_witness :
  In (selectbox
        (columns_with_null
           [(LStr "n", Int64Series [1; 2]%Z);
            (LStr "c", ObjectSeries [Some "a"; None]%string)])
        0 (Some 7))
     (columns_with_null
        [(LStr "n", Int64Series [1; 2]%Z);
         (LStr "c", ObjectSeries [Some "a"; None]%string)]).
Proof.
  apply (section_cleans_a_column_with_missing_cell
           {| missing_choice := Some 7; method_choice := Mean;
              apply_cleaning_clicked := true;
              remove_duplicates_clicked := false;
              plot_choice := Histogram; column_choice := None;
              x_choice := None; y_choice := None |}
           [(LStr "n", Int64Series [1; 2]%Z);
            (LStr "c", ObjectSeries [Some "a"; None]%string)]).
  - repeat constructor; cbn; intuition discriminate.
  - vm_compute. lia.
Defined.

Lemma handle_missing_values_raises
    (w : widgets) (df df' : DataFrame) (out : list ui) (e : exn) :
  handle_missing_values w df = (df', out, inl e) ->
  let selected_col_missing :=
    selectbox (columns_with_null df) 0 (missing_choice w) in
  e = KeyError (LInt 0)
  /\ df' = df
  /\ out = [show_missing_counts
              (filter (fun c => Nat.ltb 0 (snd c)) (isnull_sum df))]
  /\ method_choice w <> DropRows
  /\ exists s,
       getitem selected_col_missing df = inr s
       /\ Series_count s = 0
       /\ (method_choice w = Mode
           \/ dtype_in (Series_dtype s) [int64; float64] = false).
Proof.
  cbv zeta. unfold handle_missing_values, bind, get, when, emit, ret.
  destruct (Nat.ltb 0 (isnull_sum_sum df)) eqn:Hpos; [|discriminate].
  apply Nat.ltb_lt in Hpos.
  destruct (apply_cleaning_clicked w); [|discriminate].
  set (c := selectbox (columns_with_null df) 0 (missing_choice w)).
  assert (Hin : In c (columns df)).
  { pose proof (selectbox_nonempty _ (missing_choice w)
                  (isnull_sum_sum_pos df Hpos)) as Hin.
    fold c in Hin. destruct (columns_with_null_In df c Hin) as (s & Hs & _).
    apply (in_map fst) in Hs. exact Hs. }
  destruct (In_getitem c df Hin) as (s & Es).
  destruct (method_eq_dec (method_choice w) DropRows) as [Em|Hm].
  - rewrite Em, (apply_cleaning_DropRows c df s Es). discriminate.
  - rewrite (apply_cleaning_fill (method_choice w) c df s Hm Es).
    destruct (fill_value (method_choice w) s) as [e0|v] eqn:Ef;
      [|discriminate].
    intros [= <- <- <-].
    destruct (fill_value_error _ _ _ Hm Ef) as (-> & Hc & Hor).
    repeat split; auto. exists s. auto.
Qed.

(** X8.  The missing-values section never asks for a column that the table
    does not have.  The only exception it can raise is the lookup of
    [mode()[0]] in a column without present value (for Mode, or for any
    fill of a column that is not [int64]/[float64]); the table is then as
    it was and only the counts of missing values are on the page. *)
Theorem section_raises_only_for_empty_mode
    (w : widgets) (df df' : DataFrame) (out : list ui) (e : exn) :
  handle_missing_values w df = (df', out, inl e) ->
  let selected_col_missing :=
    selectbox (columns_with_null df) 0 (missing_choice w) in
  e = KeyError (LInt 0)
  /\ df' = df
  /\ out = [show_missing_counts
              (filter (fun c => Nat.ltb 0 (snd c)) (isnull_sum df))]
  /\ method_choice w <> DropRows
  /\ exists s,
       getitem selected_col_missing df = inr s
       /\ Series_count s = 0
       /\ (method_choice w = Mode
           \/ dtype_in (Series_dtype s) [int64; float64] = false).
Proof. apply handle_missing_values_raises. Qed.

Lemma section_raises_only_for_empty_mode_witness :
  KeyError (LInt 0) = KeyError (LInt 0)
  /\ [(LStr "c", ObjectSeries [None; None])]
     = [(LStr "c", ObjectSeries [None; None])].
Proof.
  pose proof (section_raises_only_for_empty_mode
                {| missing_choice := None; method_choice := Median;
                   apply_cleaning_clicked := true;
                   remove_duplicates_clicked := false;
                   plot_choice := Histogram; column_choice := None;
                   x_choice := None; y_choice := None |}
                [(LStr "c", ObjectSeries [None; None])]
                [(LStr "c", ObjectSeries [None; None])]
                [show_missing_counts [(LStr "c", 2)]]
                (KeyError (LInt 0)) eq_refl) as H.
  split; [exact (proj1 H) | exact (proj1 (proj2 H))].
Defined.

(** X9.  The table of missing-value counts that the section shows lists
    exactly the columns that the select box offers, in the same order, each
    with a count that is not zero. *)
Theorem missing_counts_list_the_options (df : DataFrame) :
  let shown := filter (fun c => Nat.ltb 0 (snd c)) (isnull_sum df) in
  map fst shown = columns_with_null df
  /\ Forall (fun c => 0 < snd c) shown.
Proof.
  cbv zeta. split.
  - unfold isnull_sum, columns_with_null.
    induction df as [|[l s] df IH]; [reflexivity|].
    cbn [map filter fst snd]. rewrite count_true_pos.
    destruct (existsb (fun b => b) (Series_isnull s)); cbn [map fst];
      rewrite IH; reflexivity.
  - apply Forall_forall. intros c Hc. apply filter_In in Hc.
    apply Nat.ltb_lt. tauto.
Qed.

(** ** Further properties of the visualizer and of the page *)

(** A label that passes the guard of a plot was picked among the options. *)
Lemma truthy_selectbox (options : list label) (index : nat) (choice : option nat) :
  truthy (selectbox options index choice) = true ->
  In (selectbox options index choice) options.
Proof.
  intros Ht. destruct (selectbox_In options index choice) as [E|Hin];
    [rewrite E in Ht; discriminate | exact Hin].
Qed.

Lemma plot_column (c : label) (k : Series -> chart) (df : DataFrame) :
  In c (columns df) ->
  exists s, getitem c df = inr s
            /\ bind (col_ c) (fun s => emit (pyplot (k s))) df
               = (df, [pyplot (k s)], inr tt).
Proof.
  intros Hin. destruct (In_getitem c df Hin) as (s & Es). exists s.
  split; [exact Es|]. unfold col_, bind, get, lift, emit. rewrite Es.
  reflexivity.
Qed.

Lemma visualization_outcome (w : widgets) (df : DataFrame) :
  exists out,
    visualization w df = (df, out, inr tt)
    /\ (out = [] \/ exists c, out = [pyplot c]).
Proof.
  unfold visualization, bind at 1, get.
  destruct (plot_choice w).
  - destruct (truthy (selectbox _ 0 (column_choice w))) eqn:Ht;
      [|exists []; cbn; auto].
    destruct (plot_column _ histplot df
                (select_dtypes_columns _ _ _ (truthy_selectbox _ _ _ Ht)))
      as (s & _ & Er).
    exists [pyplot (histplot s)]. unfold when. rewrite Er. cbn. eauto.
  - destruct (truthy (selectbox _ 0 (column_choice w))) eqn:Ht;
      [|exists []; cbn; auto].
    destruct (plot_column _ countplot df
                (select_dtypes_columns _ _ _ (truthy_selectbox _ _ _ Ht)))
      as (s & _ & Er).
    exists [pyplot (countplot s)]. unfold when. rewrite Er. cbn. eauto.
  - destruct (truthy _ && truthy _); cbn; eauto.
  - destruct (truthy (selectbox _ 0 (column_choice w))) eqn:Ht;
      [|exists []; cbn; auto].
    destruct (plot_column _ boxplot df
                (select_dtypes_columns _ _ _ (truthy_selectbox _ _ _ Ht)))
      as (s & _ & Er).
    exists [pyplot (boxplot s)]. unfold when. rewrite Er. cbn. eauto.
Qed.

(** X10.  The visualization section leaves the table as it is, and a column
    it plots is always a column of the table: a label that passes the guard
    was picked among the eligible columns, so the section's own lookup
    [df[selected_col]] finds it.  (What the plotting library does with the
    data is not part of the model.) *)
Theorem plotted_columns_are_in_the_table (w : widgets) (df : DataFrame) :
  exec (visualization w) df = df
  /\ match plot_choice w with
     | ScatterPlot =>
         let num_cols := eligible ScatterPlot df in
         let col_x := selectbox num_cols 0 (x_choice w) in
         let col_y :=
           selectbox num_cols
             (if Nat.ltb 1 (List.length num_cols) then 1 else 0)
             (y_choice w) in
         truthy col_x && truthy col_y = true ->
         (In col_x num_cols /\ exists s, getitem col_x df = inr s)
         /\ (In col_y num_cols /\ exists s, getitem col_y df = inr s)
     | p =>
         let selected_col := selectbox (eligible p df) 0 (column_choice w) in
         truthy selected_col = true ->
         In selected_col (eligible p df)
         /\ exists s, getitem selected_col df = inr s
     end.
Proof.
  split.
  - unfold exec. destruct (visualization_outcome w df) as (out & -> & _).
    reflexivity.
  - assert (Hsel : forall include index choice,
              truthy (selectbox (columns (select_dtypes include df))
                        index choice) = true ->
              In (selectbox (columns (select_dtypes include df)) index choice)
                 (columns (select_dtypes include df))
              /\ exists s,
                   getitem (selectbox (columns (select_dtypes include df))
                              index choice) df = inr s).
    { intros include index choice Ht.
      pose proof (truthy_selectbox _ _ _ Ht) as Hin.
      split; [exact Hin|].
      apply In_getitem. apply (select_dtypes_columns include). exact Hin. }
    destruct (plot_choice w); cbv zeta; unfold eligible;
      try (apply Hsel).
    intros Ht. apply andb_true_iff in Ht. destruct Ht as [Hx Hy].
    split; apply Hsel; assumption.
Qed.

Lemma plotted_columns_are_in_the_table_witness :
  In (LStr "age") (eligible BoxPlot
                     [(LStr "city", ObjectSeries [Some "a"; Some "b"]%string);
                      (LStr "age", Float64Series [20; 30]%float)])
  /\ exists s,
       getitem (LStr "age")
         [(LStr "city", ObjectSeries [Some "a"; Some "b"]%string);
          (LStr "age", Float64Series [20; 30]%float)]
       = inr s.
Proof.
  exact (proj2
           (plotted_columns_are_in_the_table
              {| missing_choice := None; method_choice := Mean;
                 apply_cleaning_clicked := false;
                 remove_duplicates_clicked := false;
                 plot_choice := BoxPlot; column_choice := None;
                 x_choice := None; y_choice := None |}
              [(LStr "city", ObjectSeries [Some "a"; Some "b"]%string);
               (LStr "age", Float64Series [20; 30]%float)])
           eq_refl).
Defined.

(** X11.  Scatter Plot before the user has picked an axis: with a single
    numeric column both axes are that column; with two or more the x axis is
    the first numeric column and the y axis the second.  The plot is drawn
    when both labels are truthy. *)
Theorem scatter_plot_default_axes (w : widgets) (df : DataFrame) :
  plot_choice w = ScatterPlot ->
  x_choice w = None ->
  y_choice w = None ->
  visualization w df
  = (df,
     match columns (select_dtypes [int64; float64] df) with
     | [] => []
     | [c] => if truthy c then [pyplot (scatterplot df c c)] else []
     | a :: b :: _ =>
         if truthy a && truthy b then [pyplot (scatterplot df a b)] else []
     end,
     inr tt).
Proof.
  intros Hp Hx Hy. unfold visualization, bind, get. rewrite Hp, Hx, Hy.
  cbv zeta beta iota.
  destruct (columns (select_dtypes [int64; float64] df)) as [|a [|b l]];
    cbn [selectbox List.length Nat.ltb Nat.leb nth truthy andb when].
  - reflexivity.
  - rewrite andb_diag. destruct (truthy a); reflexivity.
  - destruct (truthy a && truthy b); reflexivity.
Qed.

Lemma scatter_plot_default_axes_witness :
  visualization
    {| missing_choice := None; method_choice := Mean;
       apply_cleaning_clicked := false; remove_duplicates_clicked := false;
       plot_choice := ScatterPlot; column_choice := None;
       x_choice := None; y_choice := None |}
    [(LStr "city", ObjectSeries [Some "a"; Some "b"]%string);
     (LStr "age", Float64Series [20; 30]%float)]
  = ([(LStr "city", ObjectSeries [Some "a"; Some "b"]%string);
      (LStr "age", Float64Series [20; 30]%float)],
     [pyplot
        (scatterplot
           [(LStr "city", ObjectSeries [Some "a"; Some "b"]%string);
            (LStr "age", Float64Series [20; 30]%float)]
           (LStr "age") (LStr "age"))],
     inr tt).
Proof.
  apply (scatter_plot_default_axes
           {| missing_choice := None; method_choice := Mean;
              apply_cleaning_clicked := false;
              remove_duplicates_clicked := false;
              plot_choice := ScatterPlot; column_choice := None;
              x_choice := None; y_choice := None |}
           [(LStr "city", ObjectSeries [Some "a"; Some "b"]%string);
            (LStr "age", Float64Series [20; 30]%float)]);
    reflexivity.
Defined.

Lemma exec_bind {A B : Type} (c : M A) (k : A -> M B) (df : DataFrame) :
  exec c df = df ->
  (forall a, exec (k a) df = df) ->
  exec (bind c k) df = df.
Proof.
  unfold exec, bind. intros Hc Hk.
  destruct (c df) as [[df1 out1] [e|a]]; cbn in Hc; subst df1;
    [reflexivity|].
  specialize (Hk a). destruct (k a df) as [[df2 out2] r]. exact Hk.
Qed.

Section Page.
Variable describe : DataFrame -> exn + list (label * list scalar).

Lemma data_overview_exec (df : DataFrame) :
  exec (data_overview describe) df = df.
Proof.
  unfold exec, data_overview, bind, get, emit, lift.
  destruct (describe df); reflexivity.
Qed.

(** X12.  A run in which neither button is clicked leaves the table as it
    was loaded: the overview, both cleaning sections and the plot only read
    it. *)
Theorem page_without_click_reads_only (w : widgets) (df : DataFrame) :
  apply_cleaning_clicked w = false ->
  remove_duplicates_clicked w = false ->
  exec (page describe w) df = df.
Proof.
  intros Ha Hr. unfold page.
  apply exec_bind; [reflexivity|]. intros _.
  apply exec_bind; [apply data_overview_exec|]. intros _.
  apply exec_bind.
  { unfold exec, handle_missing_values, bind, get, when, emit.
    rewrite Ha. destruct (Nat.ltb 0 (isnull_sum_sum df)); reflexivity. }
  intros _. apply exec_bind.
  { unfold exec, remove_duplicates, bind, get, when, emit.
    rewrite Hr. destruct (Nat.ltb 0 (count_true (duplicated df)));
      reflexivity. }
  intros _. unfold exec.
  destruct (visualization_outcome w df) as (out & -> & _). reflexivity.
Qed.

End Page.

Lemma page_without_click_reads_only_witness :
  exec
    (page (fun _ => inl ValueError)
       {| missing_choice := None; method_choice := DropRows;
          apply_cleaning_clicked := false; remove_duplicates_clicked := false;
          plot_choice := BarChart; column_choice := None;
          x_choice := None; y_choice := None |})
    [(LStr "c", ObjectSeries [Some "a"; None; Some "a"]%string)]
  = [(LStr "c", ObjectSeries [Some "a"; None; Some "a"]%string)].
Proof.
  apply (page_without_click_reads_only (fun _ => inl ValueError)
           {| missing_choice := None; method_choice := DropRows;
              apply_cleaning_clicked := false;
              remove_duplicates_clicked := false;
              plot_choice := BarChart; column_choice := None;
              x_choice := None; y_choice := None |}
           [(LStr "c", ObjectSeries [Some "a"; None; Some "a"]%string)]);
    reflexivity.
Defined.

(** ** Further properties of the loader and of the overview *)

Lemma substring_full (s : string) : substring 0 (String.length s) s = s.
Proof. induction s as [|a s IH]; cbn; [reflexivity | rewrite IH; reflexivity]. Qed.

Lemma String_length_append (p q : string) :
  String.length (p ++ q) = String.length p + String.length q.
Proof. induction p as [|a p IH]; cbn; [reflexivity | rewrite IH; reflexivity]. Qed.

Lemma substring_append_suffix (p q : string) :
  substring (String.length p) (String.length q) (p ++ q) = q.
Proof. induction p as [|a p IH]; cbn; [apply substring_full | exact IH]. Qed.

Lemma substring_split (s : string) (m : nat) :
  m <= String.length s ->
  s = (substring 0 m s ++ substring m (String.length s - m) s)%string.
Proof.
  revert m. induction s as [|a s IH]; intros [|m] Hm; cbn in *; try lia.
  - reflexivity.
  - rewrite substring_full. reflexivity.
  - rewrite <- IH by lia. reflexivity.
Qed.

Lemma endswith_spec (s suffix : string) :
  endswith s suffix = true <-> has_suffix s suffix.
Proof.
  unfold endswith, has_suffix. split.
  - intros E. apply andb_true_iff in E. destruct E as [Hk Es].
    apply Nat.leb_le in Hk. apply String.eqb_eq in Es.
    exists (substring 0 (String.length s - String.length suffix) s).
    pose proof (substring_split s (String.length s - String.length suffix))
      as Hs.
    replace (String.length s - (String.length s - String.length suffix))
      with (String.length suffix) in Hs by lia.
    rewrite Es in Hs. apply Hs. lia.
  - intros (p & ->). rewrite String_length_append. apply andb_true_iff.
    split; [apply Nat.leb_le; lia|].
    replace (String.length p + String.length suffix - String.length suffix)
      with (String.length p) by lia.
    rewrite substring_append_suffix. apply String.eqb_refl.
Qed.

Lemma endswith_false (s suffix : string) :
  endswith s suffix = false <-> ~ has_suffix s suffix.
Proof.
  rewrite <- endswith_spec. destruct (endswith s suffix); split;
    congruence.
Qed.

Section LoaderDispatch.
Variable read_csv : UploadedFile -> exn + DataFrame.
Variable read_excel : UploadedFile -> exn + DataFrame.

(** X13.  [load_data] returns a table exactly when the file name ends in
    [.csv] and the CSV parser returns it, or the name does not end in [.csv]
    but ends in [.xls] or [.xlsx] and the spreadsheet parser returns it (the
    CSV suffix is tested first, and the tests look at case); nothing is then
    put on the page.  It shows an error exactly when the parser chosen that
    way raises, and the error shown is the exception raised. *)
Theorem load_data_dispatches_on_suffix
    (file : UploadedFile) (out : list ui) (df : DataFrame) (e : exn) :
  let csv := has_suffix (name file) ".csv" in
  let excel := has_suffix (name file) ".xls" \/ has_suffix (name file) ".xlsx" in
  (load_data read_csv read_excel file = (out, Some df) <->
   out = [] /\ (csv /\ read_csv file = inr df
                \/ ~ csv /\ excel /\ read_excel file = inr df))
  /\ (load_data read_csv read_excel file = ([error_reading_file e], None) <->
      csv /\ read_csv file = inl e
      \/ ~ csv /\ excel /\ read_excel file = inl e).
Proof.
  cbv zeta. unfold load_data.
  rewrite <- !endswith_spec.
  destruct (endswith (name file) ".csv") eqn:Ec.
  - destruct (read_csv file) as [e0|df0]; split; split;
      try (intros [= <- <-]); try (intros [= <-]);
      try (intros [-> [[_ [= <-]]|[Hn _]]]);
      try (intros [[_ [= <-]]|[Hn _]]);
      try congruence; try discriminate; auto.
  - assert (Hx : (endswith (name file) ".xls" = true
                  \/ endswith (name file) ".xlsx" = true)
                 <-> endswith (name file) ".xls"
                     || endswith (name file) ".xlsx" = true)
      by (rewrite orb_true_iff; tauto).
    rewrite Hx.
    destruct (endswith (name file) ".xls" || endswith (name file) ".xlsx").
    + destruct (read_excel file) as [e0|df0]; split; split;
        try (intros [= <- <-]); try (intros [= <-]);
        try (intros [-> [[[=] _]|[_ [_ [= <-]]]]]);
        try (intros [[[=] _]|[_ [_ [= <-]]]]);
        try congruence; try discriminate;
        auto 6 using diff_false_true.
    + split; split; try discriminate;
        try (intros [-> [[[=] _]|[_ [[=] _]]]]);
        try (intros [[[=] _]|[_ [[=] _]]]).
Qed.

End LoaderDispatch.

Lemma has_suffix_example : has_suffix "report.final.csv" ".csv".
Proof. exists "report.final"%string. reflexivity. Qed.

Lemma count_true_map_negb_isnull (s : Series) :
  count_true (map negb (Series_isnull s)) + count_true (Series_isnull s)
  = Series_len s.
Proof.
  rewrite count_true_negb, Series_isnull_cells, length_map.
  symmetry. apply Series_len_cells.
Qed.

(** X14.  The numbers of the overview and of the missing-values section
    agree: for every column, the non-null count shown by [info] and the
    missing count of [isnull().sum()] add up to the number of rows shown by
    [shape], whose second component is the number of columns listed. *)
Theorem overview_counts_add_up (df : DataFrame) :
  aligned df = true ->
  Forall2 (fun i n =>
             fst (fst i) = fst n
             /\ snd (fst i) + snd n = fst (shape df))
          (info df) (isnull_sum df)
  /\ snd (shape df) = List.length (info df)
  /\ map (fun i => fst (fst i)) (info df) = columns df.
Proof.
  intros Ha. split; [|split].
  - unfold info, isnull_sum, shape. cbn [fst].
    assert (Hall : forall c, In c df -> Series_len (snd c) = nrows df)
      by (intros c Hc; apply aligned_len; assumption).
    generalize (nrows df) Hall. clear Ha Hall. intros n Hall.
    induction df as [|[l s] df IH]; cbn [map]; constructor.
    + cbn [fst snd]. split; [reflexivity|].
      rewrite count_true_map_negb_isnull.
      apply (Hall (l, s)). left. reflexivity.
    + apply IH. intros c Hc. apply Hall. right. exact Hc.
  - unfold shape, info. cbn [snd]. rewrite length_map. reflexivity.
  - unfold info, columns. rewrite map_map. reflexivity.
Qed.

Lemma overview_counts_add_up_witness :
  snd (shape [(LStr "c", ObjectSeries [Some "a"; None]%string);
              (LStr "n", Int64Series [1; 2]%Z)])
  = List.length (info [(LStr "c", ObjectSeries [Some "a"; None]%string);
                       (LStr "n", Int64Series [1; 2]%Z)]).
Proof.
  apply (overview_counts_add_up
           [(LStr "c", ObjectSeries [Some "a"; None]%string);
            (LStr "n", Int64Series [1; 2]%Z)]).
  reflexivity.
Defined.

(** ** The mode does not depend on the order of the rows *)

#[export] Instance EltAntisym_int64 : EltAntisym Z.
Proof.
  split; cbn. intros x y _ _. rewrite !Z.leb_le. intros H1 H2.
  f_equal. lia.
Qed.

#[export] Instance EltAntisym_bool : EltAntisym bool.
Proof. split; cbn. intros [] [] _ _; cbn; congruence. Qed.

#[export] Instance EltAntisym_object : EltAntisym (option string).
Proof.
  split; cbn. intros [x|] [y|] Hx Hy; try discriminate.
  intros H1 H2. rewrite (String.leb_antisym x y H1 H2). reflexivity.
Qed.

Lemma sf_rank_float_key (x y : float) :
  Prim2SF x <> S754_nan -> Prim2SF y <> S754_nan ->
  sf_rank (Prim2SF x) = sf_rank (Prim2SF y) -> float_key x = float_key y.
Proof.
  unfold float_key.
  destruct (Prim2SF x) as [s|s| |s m e], (Prim2SF y) as [t|t| |t n f];
    try congruence; intros _ _; try destruct s; try destruct t; cbn;
    intros E; try discriminate E; try reflexivity;
    injection E as E1 E2; repeat f_equal; lia.
Qed.

#[export] Instance EltAntisym_float64 : EltAntisym float.
Proof.
  split; cbn. intros x y Hx Hy. apply float_present in Hx, Hy.
  rewrite !leb_spec, !SFleb_rank by assumption. intros H1 H2.
  apply sf_rank_float_key; try assumption.
  destruct (sf_rank (Prim2SF x)) as [[a1 a2] a3],
           (sf_rank (Prim2SF y)) as [[b1 b2] b3].
  unfold lex_le in *. repeat f_equal; lia.
Qed.

Section ModeOrder.
Context {A : Type} `{EltLaws A} `{!EltAntisym A}.

Lemma occurrences_Permutation (v : A) (xs xs' : list A) :
  Permutation xs xs' -> occurrences v xs = occurrences v xs'.
Proof.
  unfold occurrences. induction 1 as [|x l l' _ IH|x y l|l l' l'' _ IH1 _ IH2];
    cbn.
  - reflexivity.
  - destruct (same v x); cbn; rewrite IH; reflexivity.
  - destruct (same v x), (same v y); reflexivity.
  - congruence.
Qed.

Lemma smallest_most_frequent_Permutation (m : A) (xs xs' : list A) :
  Permutation xs xs' ->
  smallest_most_frequent m xs -> smallest_most_frequent m xs'.
Proof.
  intros Hp [(Hin & Hm & Hmax) Hle].
  assert (Hocc : forall v, occurrences v xs' = occurrences v xs)
    by (intros v; symmetry; apply occurrences_Permutation; exact Hp).
  repeat split.
  - apply (Permutation_in _ Hp). exact Hin.
  - exact Hm.
  - intros v Hv Hvp. rewrite !Hocc. apply Hmax; [|exact Hvp].
    apply (Permutation_in _ (Permutation_sym Hp)). exact Hv.
  - intros v Hv Hvp. rewrite !Hocc. apply Hle; [|exact Hvp].
    apply (Permutation_in _ (Permutation_sym Hp)). exact Hv.
Qed.

Lemma smallest_most_frequent_unique (m m' : A) (xs : list A) :
  smallest_most_frequent m xs -> smallest_most_frequent m' xs ->
  hkey m = hkey m'.
Proof.
  intros [(Hin & Hm & Hmax) Hle] [(Hin' & Hm' & Hmax') Hle'].
  assert (E : occurrences m' xs = occurrences m xs).
  { specialize (Hmax m' Hin' Hm'). specialize (Hmax' m Hin Hm). lia. }
  apply le_antisym; auto.
Qed.

Lemma existsb_Permutation (f : A -> bool) (xs xs' : list A) :
  Permutation xs xs' -> existsb f xs = existsb f xs'.
Proof.
  induction 1 as [|x l l' _ IH|x y l|l l' l'' _ IH1 _ IH2]; cbn.
  - reflexivity.
  - rewrite IH. reflexivity.
  - destruct (f x), (f y); reflexivity.
  - congruence.
Qed.

(** The first of the modes has the same key in whatever order the cells
    come. *)
Lemma mode_head_Permutation (xs xs' : list A) :
  Permutation xs xs' ->
  option_map hkey (hd_error (mode xs)) = option_map hkey (hd_error (mode xs')).
Proof.
  intros Hp. destruct (existsb notna xs) eqn:Hex.
  - pose proof Hex as Hex'. rewrite (existsb_Permutation _ _ _ Hp) in Hex'.
    destruct (mode_head xs Hex) as (m & rest & -> & Hm).
    destruct (mode_head xs' Hex') as (m' & rest' & -> & Hm').
    cbn. f_equal. apply (smallest_most_frequent_unique m m' xs'); [|exact Hm'].
    apply (smallest_most_frequent_Permutation m xs xs' Hp Hm).
  - pose proof Hex as Hex'. rewrite (existsb_Permutation _ _ _ Hp) in Hex'.
    rewrite (mode_all_na xs Hex), (mode_all_na xs' Hex'). reflexivity.
Qed.

End ModeOrder.

Lemma hd_error_map {X Y : Type} (f : X -> Y) (l : list X) :
  hd_error (map f l) = option_map f (hd_error l).
Proof. destruct l; reflexivity. Qed.

Lemma Series_mode0_hd (s : Series) :
  Series_mode0 s
  = match hd_error (Series_mode s) with
    | Some v => inr v
    | None => inl (KeyError (LInt 0))
    end.
Proof. unfold Series_mode0. destruct (Series_mode s); reflexivity. Qed.

(** X15.  The value that a Mode fill (or the fall-back for a column that is
    not numeric) fills with does not depend on the order of the rows: for
    two columns with the same cells in another order, [mode()[0]] raises
    for both or returns values with the same key (the same value; for
    floats the same number). *)
Theorem mode_fill_value_ignores_row_order (s s' : Series) :
  Series_permuted s s' ->
  match Series_mode0 s, Series_mode0 s' with
  | inr v, inr v' => hkey v = hkey v'
  | inl e, inl e' => e = e'
  | _, _ => False
  end.
Proof.
  intros Hp. rewrite !Series_mode0_hd.
  destruct Hp as [v v' Hp|v v' Hp|v v' Hp|v v' Hp];
    pose proof (mode_head_Permutation v v' Hp) as E;
    cbn [Series_mode]; rewrite !hd_error_map;
    destruct (hd_error (mode v)) as [a|], (hd_error (mode v')) as [b|];
    cbn [option_map] in E |- *; try discriminate E; try reflexivity;
    first [rewrite !scalar_of_object_hkey; congruence
          | cbn in *; congruence].
Qed.

Lemma mode_fill_value_ignores_row_order_witness :
  hkey (PyStr "x") = hkey (PyStr "x").
Proof.
  exact (mode_fill_value_ignores_row_order
           (ObjectSeries [Some "x"; Some "y"; Some "x"; Some "y"]%string)
           (ObjectSeries [Some "y"; Some "x"; Some "y"; Some "x"]%string)
           (permuted_object _ _
              (perm_trans
                 (perm_swap (Some "y"%string) (Some "x"%string) _)
                 (perm_skip (Some "y"%string)
                    (perm_skip (Some "x"%string)
                       (perm_swap (Some "y"%string) (Some "x"%string) [])))))).
Defined.

(** ** The page after a cleaning step *)

Lemma columns_with_null_intro (df : DataFrame) (c : label) (s : Series) :
  In (c, s) df -> 0 < count_true (Series_isnull s) ->
  In c (columns_with_null df).
Proof.
  intros Hin Hc. unfold columns_with_null. apply in_map_iff.
  exists (c, s). split; [reflexivity|]. apply filter_In.
  split; [exact Hin|]. cbn [snd]. rewrite <- count_true_pos.
  apply Nat.ltb_lt. exact Hc.
Qed.

(** X16.  In a table with unique column labels, after a fill that computes
    a value which is not [NaN] the select box of the missing-values section
    offers the columns it offered before except the filled one. *)
Theorem filled_column_leaves_the_options
    (fill_method : method) (df : DataFrame) (col : label) (s : Series)
    (v : scalar) :
  NoDup (columns df) ->
  getitem col df = inr s ->
  fill_method <> DropRows ->
  fill_value fill_method s = inr v ->
  isna v = false ->
  forall c,
    In c (columns_with_null (exec (apply_cleaning fill_method col) df))
    <-> In c (columns_with_null df) /\ c <> col.
Proof.
  intros Hnd E Hm Hf Hv c. unfold exec.
  rewrite (apply_cleaning_fill fill_method col df s Hm E), Hf. cbn [fst].
  set (s' := Series_fillna v s). set (df' := setitem col s' df).
  assert (Hnd' : NoDup (columns df'))
    by (unfold df'; rewrite columns_setitem; exact Hnd).
  assert (H0 : count_true (Series_isnull s') = 0).
  { unfold s'. rewrite Series_isnull_cells, Series_fillna_cells
      by (apply (fill_value_fits fill_method); assumption).
    apply count_true_no_na, any_na_fillna. exact Hv. }
  assert (Hcol : getitem col df' = inr s')
    by (apply (getitem_setitem_same col s); exact E).
  split.
  - intros Hin. destruct (columns_with_null_In df' c Hin) as (t & Ht & Hc).
    pose proof (getitem_NoDup df' c t Hnd' Ht) as Eg.
    assert (Hne : c <> col).
    { intros ->. rewrite Hcol in Eg. injection Eg as <-. lia. }
    split; [|exact Hne].
    unfold df' in Eg. rewrite (getitem_setitem_other col c s' df Hne) in Eg.
    apply (columns_with_null_intro df c t); [apply getitem_In|]; assumption.
  - intros [Hin Hne]. destruct (columns_with_null_In df c Hin) as (t & Ht & Hc).
    pose proof (getitem_NoDup df c t Hnd Ht) as Eg.
    rewrite <- (getitem_setitem_other col c s' df Hne) in Eg.
    apply (columns_with_null_intro df' c t); [apply getitem_In|]; assumption.
Qed.

Lemma filled_column_leaves_the_options_witness :
  In (LStr "x")
    (columns_with_null
       (exec (apply_cleaning Mode (LStr "c"))
          [(LStr "c", ObjectSeries [Some "a"; None]%string);
           (LStr "x", Float64Series [PrimFloat.nan; 3]%float)]))
  <-> In (LStr "x")
        (columns_with_null
           [(LStr "c", ObjectSeries [Some "a"; None]%string);
            (LStr "x", Float64Series [PrimFloat.nan; 3]%float)])
      /\ LStr "x" <> LStr "c".
Proof.
  apply (filled_column_leaves_the_options Mode
           [(LStr "c", ObjectSeries [Some "a"; None]%string);
            (LStr "x", Float64Series [PrimFloat.nan; 3]%float)]
           (LStr "c") (ObjectSeries [Some "a"; None]%string) (PyStr "a")).
  - repeat constructor; cbn; intuition discriminate.
  - reflexivity.
  - discriminate.
  - reflexivity.
  - reflexivity.
Defined.

Section Abort.
Variable describe : DataFrame -> exn + list (label * list scalar).

(** X17.  An uncaught exception ends the run where it is raised.  When
    [describe] raises, the page stops after the column information: no
    cleaning section, no plot.  When the cleaning handler raises, the page
    stops after the table of missing counts: the duplicates section and the
    plot are not shown.  The table is as it was loaded in both cases. *)
Theorem exception_ends_the_run (w : widgets) (df : DataFrame) :
  (forall e, describe df = inl e ->
     page describe w df
     = (df, [success_loaded; show_head (head df); show_shape (shape df);
             show_info (info df)], inl e))
  /\ (forall d df1 out1 e,
        describe df = inr d ->
        handle_missing_values w df = (df1, out1, inl e) ->
        page describe w df
        = (df, [success_loaded; show_head (head df); show_shape (shape df);
                show_info (info df); show_describe d] ++ out1, inl e)).
Proof.
  split.
  - intros e Ed. unfold page, data_overview, bind, get, emit, lift.
    rewrite Ed. reflexivity.
  - intros d df1 out1 e Ed Eh.
    destruct (handle_missing_values_raises w df df1 out1 e Eh)
      as (_ & -> & _).
    unfold page, data_overview, bind, get, emit, lift.
    rewrite Ed. cbv beta iota. rewrite Eh. reflexivity.
Qed.

End Abort.

Lemma exception_ends_the_run_witness :
  page (fun _ => inr [])
    {| missing_choice := None; method_choice := Mode;
       apply_cleaning_clicked := true; remove_duplicates_clicked := true;
       plot_choice := BarChart; column_choice := None;
       x_choice := None; y_choice := None |}
    [(LStr "c", ObjectSeries [None; None])]
  = ([(LStr "c", ObjectSeries [None; None])],
     [success_loaded;
      show_head [(LStr "c", ObjectSeries [None; None])];
      show_shape (2, 1);
      show_info [(LStr "c", 0, object)];
      show_describe [];
      show_missing_counts [(LStr "c", 2)]],
     inl (KeyError (LInt 0))).
Proof.
  apply (proj2 (exception_ends_the_run (fun _ => inr [])
                  {| missing_choice := None; method_choice := Mode;
                     apply_cleaning_clicked := true;
                     remove_duplicates_clicked := true;
                     plot_choice := BarChart; column_choice := None;
                     x_choice := None; y_choice := None |}
                  [(LStr "c", ObjectSeries [None; None])])
           [] [(LStr "c", ObjectSeries [None; None])]
           [show_missing_counts [(LStr "c", 2)]]
           (KeyError (LInt 0)));
    reflexivity.
Defined.

(** X18.  The guard [if selected_col:] tests the label, not whether a column
    was selected: a column whose label is falsy (the empty text, the number
    0) is never drawn by Histogram, Bar Chart or Box Plot, although it is
    offered in the select box. *)
Theorem falsy_label_is_never_plotted (w : widgets) (df : DataFrame) :
  plot_choice w <> ScatterPlot ->
  truthy (selectbox (eligible (plot_choice w) df) 0 (column_choice w)) = false ->
  visualization w df = (df, [], inr tt).
Proof.
  intros Hp Ht. unfold visualization, bind, get. unfold eligible in Ht.
  destruct (plot_choice w); try congruence; cbv zeta; rewrite Ht;
    reflexivity.
Qed.

Lemma falsy_label_is_never_plotted_witness :
  eligible Histogram [(LInt 0, Float64Series [1; 2; 3]%float)] = [LInt 0]
  /\ visualization
       {| missing_choice := None; method_choice := Mean;
          apply_cleaning_clicked := false; remove_duplicates_clicked := false;
          plot_choice := Histogram; column_choice := Some 0;
          x_choice := None; y_choice := None |}
       [(LInt 0, Float64Series [1; 2; 3]%float)]
     = ([(LInt 0, Float64Series [1; 2; 3]%float)], [], inr tt).
Proof.
  split; [reflexivity|].
  apply (falsy_label_is_never_plotted
           {| missing_choice := None; method_choice := Mean;
              apply_cleaning_clicked := false;
              remove_duplicates_clicked := false;
              plot_choice := Histogram; column_choice := Some 0;
              x_choice := None; y_choice := None |}
           [(LInt 0, Float64Series [1; 2; 3]%float)]).
  - discriminate.
  - reflexivity.
Defined.
